(** * Output parsing and validation layer of the infrastructure generator

    A shallow embedding of [src/src/validators.py] and of the
    [_parse_output] methods of [src/generators/k8s_generator.py] and
    [src/generators/terraform_generator.py], with the facts the
    specification states about them.

    Text.  A Python [str] is modelled by [string]; a character stands for
    the code point of the same number, so the model covers the texts whose
    code points are below 256.  The character classes ([str.isspace],
    the [\s] and [\w] of [re]) are the ones CPython uses on that range,
    and [str.lower] maps such a text character by character.  A text
    with a code point above 255 is outside the model: there [str.lower]
    can lengthen the text (U+0130 becomes [i] and U+0307). *)

From Stdlib Require Import String Ascii List Bool Arith ZArith Lia DecimalString.
Import ListNotations.
Open Scope string_scope.

(* ================================================================== *)
(** * Python text primitives *)
(* ================================================================== *)

Module PyStr.

(** Line feed, the ['\n'] of the source. *)
Definition nl : ascii := "010"%char.
Definition NL : string := String nl "".

(** The double quote character. *)
Definition DQUOTE : string := String "034"%char "".

(** [str.isspace] on one character; also the class [\s] of [re]. *)
Definition is_space (c : ascii) : bool :=
  let n := nat_of_ascii c in
  (((9 <=? n) && (n <=? 13)) || ((28 <=? n) && (n <=? 32))
   || (n =? 133) || (n =? 160))%nat.

(** The class [\S] of [re]. *)
Definition not_space (c : ascii) : bool := negb (is_space c).

(** The class [\w] of [re] on [str] patterns: alphanumerics and the
    underscore. *)
Definition is_word (c : ascii) : bool :=
  let n := nat_of_ascii c in
  (((48 <=? n) && (n <=? 57)) || ((65 <=? n) && (n <=? 90)) || (n =? 95)
   || ((97 <=? n) && (n <=? 122))
   || (n =? 170) || (n =? 178) || (n =? 179) || (n =? 181) || (n =? 185)
   || (n =? 186) || ((188 <=? n) && (n <=? 190))
   || ((192 <=? n) && (n <=? 214)) || ((216 <=? n) && (n <=? 246))
   || (248 <=? n))%nat.

(** [str.lower] on one character of the range: the lower-case form of
    a code point below 256 is one code point below 256. *)
Definition lower_char (c : ascii) : ascii :=
  let n := nat_of_ascii c in
  if (((65 <=? n) && (n <=? 90)) || ((192 <=? n) && (n <=? 214))
      || ((216 <=? n) && (n <=? 222)))%nat
  then ascii_of_nat (n + 32) else c.

(** [str.lower] on a text of the range, where it keeps the length. *)
Fixpoint lower (s : string) : string :=
  match s with
  | EmptyString => EmptyString
  | String c t => String (lower_char c) (lower t)
  end.

Definition is_empty (s : string) : bool :=
  match s with EmptyString => true | String _ _ => false end.

Fixpoint lstrip (s : string) : string :=
  match s with
  | EmptyString => EmptyString
  | String c t => if is_space c then lstrip t else s
  end.

Fixpoint rstrip (s : string) : string :=
  match s with
  | EmptyString => EmptyString
  | String c t =>
      match rstrip t with
      | EmptyString => if is_space c then EmptyString else String c EmptyString
      | r => String c r
      end
  end.

(** [s.strip()] *)
Definition strip (s : string) : string := rstrip (lstrip s).

(** [s.startswith(pre)] *)
Fixpoint startswith (s pre : string) {struct pre} : bool :=
  match pre with
  | EmptyString => true
  | String p pre' =>
      match s with
      | EmptyString => false
      | String c s' => Ascii.eqb c p && startswith s' pre'
      end
  end.

(** [sub in s] *)
Fixpoint str_in (sub s : string) : bool :=
  startswith s sub
  || match s with
     | EmptyString => false
     | String _ t => str_in sub t
     end.

(** The three scanning methods below look for the occurrences of a
    non-empty [sub] from left to right, without overlap: after an
    occurrence the scan resumes behind it.  [skip] counts the characters
    of the current occurrence that are still to be passed. *)

Fixpoint count_from (sub : string) (skip : nat) (s : string) : nat :=
  match s with
  | EmptyString => 0
  | String _ t =>
      match skip with
      | S k => count_from sub k t
      | O => if startswith s sub
             then S (count_from sub (String.length sub - 1) t)
             else count_from sub 0 t
      end
  end.

(** [s.count(sub)], [sub] non-empty *)
Definition count (s sub : string) : nat := count_from sub 0 s.

Fixpoint replace_from (old new : string) (skip : nat) (s : string) : string :=
  match s with
  | EmptyString => EmptyString
  | String c t =>
      match skip with
      | S k => replace_from old new k t
      | O => if startswith s old
             then new ++ replace_from old new (String.length old - 1) t
             else String c (replace_from old new 0 t)
      end
  end.

(** [s.replace(old, new)], [old] non-empty *)
Definition replace (s old new : string) : string := replace_from old new 0 s.

(** Puts a character in front of the first piece of a split. *)
Definition cons_head (c : ascii) (pieces : list string) : list string :=
  match pieces with
  | [] => [String c EmptyString]
  | h :: r => String c h :: r
  end.

Fixpoint split_from (sep : string) (skip : nat) (s : string) : list string :=
  match s with
  | EmptyString => [EmptyString]
  | String c t =>
      match skip with
      | S k => split_from sep k t
      | O => if startswith s sep
             then EmptyString :: split_from sep (String.length sep - 1) t
             else cons_head c (split_from sep 0 t)
      end
  end.

(** [s.split(sep)], [sep] non-empty *)
Definition str_split (s sep : string) : list string := split_from sep 0 s.

(** [str(n)] for a non-negative integer, as an f-string prints it. *)
Definition str_of_nat (n : nat) : string :=
  NilZero.string_of_uint (Nat.to_uint n).

End PyStr.
Import PyStr.

(* ================================================================== *)
(** * The fragment of [re] the generators use *)
(* ================================================================== *)

Module Regex.

(** Both patterns of the source are sequences of literal characters,
    greedy stars over a character class, and one capturing group that is
    a greedy plus over a character class. *)
Inductive atom : Type :=
| Chr (c : ascii)
| Star (cls : ascii -> bool)
| CapPlus (cls : ascii -> bool).

Definition regex := list atom.

Fixpoint lit (s : string) : regex :=
  match s with
  | EmptyString => []
  | String c t => Chr c :: lit t
  end.

(** What a match gives: the captured groups and the text behind the
    match. *)
Definition found : Type := list string * string.

(** A greedy quantifier first tries to take one more character and
    gives it back when the rest of the pattern, [k], cannot match behind
    it.  [star_loop] is [cls*]; [plus_loop] is [(cls+)] and also gives
    the text it has taken. *)
Definition star_loop (cls : ascii -> bool) (k : string -> option found)
  : string -> option found :=
  fix star (s : string) : option found :=
    match s with
    | EmptyString => k s
    | String a t =>
        if cls a
        then match star t with
             | Some r => Some r
             | None => k s
             end
        else k s
    end.

Definition plus_loop (cls : ascii -> bool) (k : string -> option found)
  : string -> option (string * found) :=
  fix plus (s : string) : option (string * found) :=
    match s with
    | EmptyString => None
    | String a t =>
        if cls a
        then match plus t with
             | Some (g, r) => Some (String a g, r)
             | None =>
                 match k t with
                 | Some r => Some (String a EmptyString, r)
                 | None => None
                 end
             end
        else None
    end.

(** Backtracking match of [p] at the start of the text. *)
Fixpoint re_match (p : regex) : string -> option found :=
  match p with
  | [] => fun s => Some ([], s)
  | Chr c :: p' =>
      fun s =>
        match s with
        | EmptyString => None
        | String a t => if Ascii.eqb a c then re_match p' t else None
        end
  | Star cls :: p' => star_loop cls (re_match p')
  | CapPlus cls :: p' =>
      fun s =>
        match plus_loop cls (re_match p') s with
        | Some (g, (gs, rest)) => Some (g :: gs, rest)
        | None => None
        end
  end.

(** [re.search(p, s)]: the match at the leftmost position that has one. *)
Fixpoint re_search (p : regex) (s : string) : option found :=
  match re_match p s with
  | Some r => Some r
  | None =>
      match s with
      | EmptyString => None
      | String _ t => re_search p t
      end
  end.

(** [re.split(p, s)] for a pattern that cannot match the empty text: the
    pieces between the matches, each match contributing its groups.
    [skip] is as in [PyStr.split_from]. *)
Fixpoint re_split_from (p : regex) (skip : nat) (s : string) : list string :=
  match s with
  | EmptyString => [EmptyString]
  | String c t =>
      match skip with
      | S k => re_split_from p k t
      | O =>
          match re_match p s with
          | Some (groups, rest) =>
              EmptyString
                :: groups ++ re_split_from p (String.length s - String.length rest - 1) t
          | None => cons_head c (re_split_from p 0 t)
          end
      end
  end.

Definition re_split (p : regex) (s : string) : list string :=
  re_split_from p 0 s.

End Regex.
Import Regex.

(* ================================================================== *)
(** * Python dictionaries from [str] to [str] *)
(* ================================================================== *)

Module Dict.

(** A [dict] keeps its keys in insertion order; the items are listed in
    that order. *)
Definition dict := list (string * string).

(** [d[k] = v]: an existing key keeps its place and takes the new value,
    a new key goes to the end. *)
Fixpoint dict_set (d : dict) (k v : string) : dict :=
  match d with
  | [] => [(k, v)]
  | (k', v') :: r =>
      if String.eqb k' k then (k', v) :: r else (k', v') :: dict_set r k v
  end.

Fixpoint dict_get (d : dict) (k : string) : option string :=
  match d with
  | [] => None
  | (k', v') :: r => if String.eqb k' k then Some v' else dict_get r k
  end.

Definition keys (d : dict) : list string := map fst d.

(** [not d] *)
Definition dict_is_empty (d : dict) : bool :=
  match d with [] => true | _ :: _ => false end.

End Dict.
Import Dict.

(* ================================================================== *)
(** * Documents as [yaml.safe_load] returns them *)
(* ================================================================== *)

Module Yaml.

(** The values of the safe loader that are neither text nor a
    collection. *)
Inductive scalar : Type :=
| SNone
| SBool (b : bool)
| SInt (z : Z)
| SFloat (repr : string)
| SBytes (data : string)
| SDate (iso : string)
| SDatetime (iso : string).

#[local] Unset Elimination Schemes.
Inductive yaml : Type :=
| YScalar (a : scalar)
| YStr (s : string)
| YSeq (items : list yaml)
| YPair (k v : yaml)                (* an item of an [!!omap] or [!!pairs] *)
| YSet (items : list yaml)
| YMap (items : list (yaml * yaml)).
#[local] Set Elimination Schemes.

(** Exceptions.  [YAMLError] stands for [yaml.YAMLError] and its
    subclasses; all the classes here derive from [Exception]. *)
Inductive exn_class : Type :=
| YAMLError
| TypeError
| AttributeError
| KeyError
| OtherError (name : string).

Record exn : Type := mk_exn { exn_cls : exn_class; exn_str : string }.

(** [isinstance(e, yaml.YAMLError)] *)
Definition is_YAMLError (e : exn) : bool :=
  match exn_cls e with YAMLError => true | _ => false end.

(** What a call of the loader does: it gives a document or raises. *)
Inductive loaded : Type :=
| Document (v : yaml)
| Throws (e : exn).

Definition type_name (v : yaml) : string :=
  match v with
  | YScalar SNone => "NoneType"
  | YScalar (SBool _) => "bool"
  | YScalar (SInt _) => "int"
  | YScalar (SFloat _) => "float"
  | YScalar (SBytes _) => "bytes"
  | YScalar (SDate _) => "datetime.date"
  | YScalar (SDatetime _) => "datetime.datetime"
  | YStr _ => "str"
  | YSeq _ => "list"
  | YPair _ _ => "tuple"
  | YSet _ => "set"
  | YMap _ => "dict"
  end.

(** [v == s] for a text [s] *)
Definition eq_str (v : yaml) (s : string) : bool :=
  match v with
  | YStr s' => String.eqb s' s
  | _ => false
  end.

Fixpoint map_lookup (items : list (yaml * yaml)) (key : string) : option yaml :=
  match items with
  | [] => None
  | (k, v) :: r => if eq_str k key then Some v else map_lookup r key
  end.

(** [item in container] for a text [item].  The wording of the messages
    is that of CPython 3.11. *)
Definition py_in (item : string) (container : yaml) : exn + bool :=
  match container with
  | YStr s => inr (str_in item s)
  | YSeq l | YSet l => inr (existsb (fun x => eq_str x item) l)
  | YPair k v => inr (eq_str k item || eq_str v item)
  | YMap m =>
      inr (match map_lookup m item with Some _ => true | None => false end)
  | YScalar (SBytes _) =>
      inl (mk_exn TypeError "a bytes-like object is required, not 'str'")
  | YScalar _ =>
      inl (mk_exn TypeError
             ("argument of type '" ++ type_name container ++ "' is not iterable"))
  end.

(** [obj[key]] for a text [key] *)
Definition getitem (obj : yaml) (key : string) : exn + yaml :=
  match obj with
  | YMap m =>
      match map_lookup m key with
      | Some v => inr v
      | None => inl (mk_exn KeyError ("'" ++ key ++ "'"))
      end
  | YStr _ => inl (mk_exn TypeError "string indices must be integers, not 'str'")
  | YSeq _ => inl (mk_exn TypeError "list indices must be integers or slices, not str")
  | YPair _ _ => inl (mk_exn TypeError "tuple indices must be integers or slices, not str")
  | YScalar (SBytes _) =>
      inl (mk_exn TypeError "byte indices must be integers or slices, not str")
  | _ => inl (mk_exn TypeError ("'" ++ type_name obj ++ "' object is not subscriptable"))
  end.

(** [obj.get(key, default)] *)
Definition py_get (obj : yaml) (key : string) (default : yaml) : exn + yaml :=
  match obj with
  | YMap m =>
      match map_lookup m key with
      | Some v => inr v
      | None => inr default
      end
  | _ => inl (mk_exn AttributeError
                ("'" ++ type_name obj ++ "' object has no attribute 'get'"))
  end.

End Yaml.
Import Yaml.

(* ================================================================== *)
(** * [src/src/validators.py] *)
(* ================================================================== *)

Module Validators.

(** ** [class ValidationResult] *)

Record ValidationResult : Type := mk_result {
  valid : bool;
  errors : list string;
  warnings : list string;
  suggestions : list string
}.

(** [ValidationResult()] *)
Definition new_result : ValidationResult :=
  {| valid := true; errors := []; warnings := []; suggestions := [] |}.

Definition add_error (self : ValidationResult) (message : string) : ValidationResult :=
  {| valid := false;
     errors := errors self ++ [message];
     warnings := warnings self;
     suggestions := suggestions self |}.

Definition add_warning (self : ValidationResult) (message : string) : ValidationResult :=
  {| valid := valid self;
     errors := errors self;
     warnings := warnings self ++ [message];
     suggestions := suggestions self |}.

Definition add_suggestion (self : ValidationResult) (message : string) : ValidationResult :=
  {| valid := valid self;
     errors := errors self;
     warnings := warnings self;
     suggestions := suggestions self ++ [message] |}.

(** The calls a client can make on a result, and a sequence of them run
    on a fresh result. *)
Inductive call : Type :=
| AddError (message : string)
| AddWarning (message : string)
| AddSuggestion (message : string).

Definition do_call (self : ValidationResult) (c : call) : ValidationResult :=
  match c with
  | AddError m => add_error self m
  | AddWarning m => add_warning self m
  | AddSuggestion m => add_suggestion self m
  end.

Definition run_calls (cs : list call) : ValidationResult :=
  fold_left do_call cs new_result.

(** ** Statements that mutate the result and may raise

    The body of the [try] of [validate_kubernetes_manifest] works on the
    one result object: what it has added before an exception is still
    there when the handler runs. *)

Definition M (A : Type) : Type :=
  ValidationResult -> (exn + A) * ValidationResult.

Definition ret {A} (a : A) : M A := fun r => (inr a, r).

Definition bind {A B} (c : M A) (k : A -> M B) : M B :=
  fun r =>
    match c r with
    | (inl e, r') => (inl e, r')
    | (inr a, r') => k a r'
    end.

(** An operation of the interpreter, which leaves the result alone. *)
Definition eval {A} (x : exn + A) : M A := fun r => (x, r).

(** A method of the result. *)
Definition tell (f : ValidationResult -> string -> ValidationResult)
           (message : string) : M unit :=
  fun r => (inr tt, f r message).

Definition when (b : bool) (c : M unit) : M unit :=
  if b then c else ret tt.

Declare Scope py_scope.
Delimit Scope py_scope with py.
Notation "x <- c ;; k" := (bind c (fun x => k))
  (at level 61, c at next level, right associativity) : py_scope.
Notation "c ;; k" := (bind c (fun _ => k))
  (at level 61, right associativity) : py_scope.

(** ** Pure validators *)

Definition MSG_EMPTY_TF : string := "Empty Terraform file".
Definition MSG_NO_PROVIDER : string := "No provider block found".
Definition MSG_TF_BLOCK : string :=
  "Consider adding terraform block with required_version".

Definition validate_terraform_syntax (content : string) : ValidationResult :=
  let result := new_result in
  if is_empty (strip content) then add_error result MSG_EMPTY_TF
  else
    let open_braces := count content "{" in
    let close_braces := count content "}" in
    let result :=
      if negb (open_braces =? close_braces)%nat
      then add_error result
             ("Unbalanced braces: " ++ str_of_nat open_braces ++ " opening, "
                ++ str_of_nat close_braces ++ " closing")
      else result in
    let result :=
      if negb (str_in ("provider " ++ DQUOTE) content)
      then add_warning result MSG_NO_PROVIDER else result in
    let result :=
      if negb (str_in "terraform {" content)
      then add_suggestion result MSG_TF_BLOCK else result in
    result.

Definition MSG_FROM : string := "Dockerfile must start with FROM instruction".
Definition MSG_WORKDIR : string :=
  "Consider using WORKDIR to set working directory".
Definition MSG_USER : string :=
  "Consider adding USER instruction to run as non-root".
Definition MSG_LAYER : string :=
  "Consider copying dependency files before RUN for better layer caching".

(** The loop over [enumerate(lines)] that sets [copy_index] and
    [run_index]; [i] is the index of the first line of [lines]. *)
Fixpoint layer_scan (lines : list string) (i : Z) (copy_index run_index : Z)
  : Z * Z :=
  match lines with
  | [] => (copy_index, run_index)
  | line :: rest =>
      if startswith (strip line) "COPY"
      then layer_scan rest (i + 1) i run_index
      else if startswith (strip line) "RUN" && (run_index =? -1)%Z
           then layer_scan rest (i + 1) copy_index i
           else layer_scan rest (i + 1) copy_index run_index
  end.

Definition validate_dockerfile (content : string) : ValidationResult :=
  let result := new_result in
  let lines := str_split (strip content) NL in
  let has_from := existsb (fun line => startswith (strip line) "FROM") lines in
  let result := if negb has_from then add_error result MSG_FROM else result in
  let result :=
    if negb (str_in "WORKDIR" content)
    then add_suggestion result MSG_WORKDIR else result in
  let result :=
    if negb (str_in "USER" content)
    then add_suggestion result MSG_USER else result in
  let '(copy_index, run_index) := layer_scan lines 0 (-1) (-1) in
  if ((copy_index >? -1) && (run_index >? -1) && (copy_index >? run_index))%Z
  then add_suggestion result MSG_LAYER
  else result.

(** ** Validators that parse YAML *)

(** What a call of a validator does. *)
Inductive outcome : Type :=
| Returned (result : ValidationResult)
| Raised (e : exn).

Definition MSG_SECURITY : string :=
  "Consider adding securityContext for pod security".
Definition MSG_REPLICAS : string :=
  "Deployment spec missing replicas (will default to 1)".

Section WithLoader.

(** [yaml.safe_load], of the PyYAML package.  Its constructors can
    raise exceptions that are not [yaml.YAMLError], a [ValueError] of
    [datetime.date] for instance. *)
Variable safe_load : string -> loaded.

Definition validate_yaml_syntax (content : string) : outcome :=
  let result := new_result in
  match safe_load content with
  | Document _ => Returned result
  | Throws e =>
      if is_YAMLError e
      then Returned (add_error result ("YAML syntax error: " ++ exn_str e))
      else Raised e
  end.

Local Open Scope py_scope.

(** The checks of [kind == "Deployment"]. *)
Definition deployment_checks (manifest : yaml) : M unit :=
  (has_spec <- eval (py_in "spec" manifest) ;;
   if negb has_spec
   then tell add_error "Deployment missing spec field"
   else
     spec <- eval (getitem manifest "spec") ;;
     has_replicas <- eval (py_in "replicas" spec) ;;
     when (negb has_replicas) (tell add_warning MSG_REPLICAS)) ;;
  has_spec <- eval (py_in "spec" manifest) ;;
  has_template <-
    (if has_spec
     then spec <- eval (getitem manifest "spec") ;;
          eval (py_in "template" spec)
     else ret false) ;;
  when has_template
    (spec <- eval (getitem manifest "spec") ;;
     template <- eval (getitem spec "template") ;;
     template_spec <- eval (py_get template "spec" (YMap [])) ;;
     has_sc <- eval (py_in "securityContext" template_spec) ;;
     when (negb has_sc) (tell add_suggestion MSG_SECURITY)).

(** The checks of [kind == "Service"]. *)
Definition service_checks (manifest : yaml) : M unit :=
  has_spec <- eval (py_in "spec" manifest) ;;
  if negb has_spec
  then tell add_error "Service missing spec field"
  else
    spec <- eval (getitem manifest "spec") ;;
    has_ports <- eval (py_in "ports" spec) ;;
    when (negb has_ports) (tell add_error "Service spec missing ports").

(** The statements of the [try] behind the second load. *)
Definition inspect (manifest : yaml) : M unit :=
  has_api <- eval (py_in "apiVersion" manifest) ;;
  when (negb has_api) (tell add_error "Missing required field: apiVersion") ;;
  has_kind <- eval (py_in "kind" manifest) ;;
  when (negb has_kind) (tell add_error "Missing required field: kind") ;;
  has_meta <- eval (py_in "metadata" manifest) ;;
  when (negb has_meta) (tell add_error "Missing required field: metadata") ;;
  has_meta <- eval (py_in "metadata" manifest) ;;
  when has_meta
    (metadata <- eval (getitem manifest "metadata") ;;
     has_name <- eval (py_in "name" metadata) ;;
     when (negb has_name)
       (tell add_error "Missing required field: metadata.name")) ;;
  kind <- eval (py_get manifest "kind" (YStr "")) ;;
  if eq_str kind "Deployment" then deployment_checks manifest
  else if eq_str kind "Service" then service_checks manifest
  else ret tt.

(** The whole [try] block. *)
Definition try_body (content : string) : M unit :=
  manifest <-
    eval (match safe_load content with
          | Document v => inr v
          | Throws e => inl e
          end) ;;
  inspect manifest.

Definition validate_kubernetes_manifest (content : string) : outcome :=
  match validate_yaml_syntax content with
  | Raised e => Raised e
  | Returned result =>
      if negb (valid result) then Returned result
      else
        match try_body content result with
        | (inr _, result) => Returned result
        | (inl e, result) =>
            Returned (add_error result ("Validation error: " ++ exn_str e))
        end
  end.

(** The table [validators] of [validate_generated_code]. *)
Definition validators : list (string * (string -> outcome)) :=
  [ ("kubernetes", validate_kubernetes_manifest);
    ("terraform", fun content => Returned (validate_terraform_syntax content));
    ("docker", fun content => Returned (validate_dockerfile content)) ].

(** [table.get(key, default)] *)
Fixpoint table_get {A} (table : list (string * A)) (key : string) (default : A) : A :=
  match table with
  | [] => default
  | (k, v) :: r => if String.eqb k key then v else table_get r key default
  end.

Definition validate_generated_code (content code_type : string) : outcome :=
  let validator := table_get validators code_type validate_yaml_syntax in
  validator content.

End WithLoader.

End Validators.
Import Validators.

(* ================================================================== *)
(** * The [_parse_output] methods of the generators *)
(* ================================================================== *)

(** The marker pattern of both generators,
    [r'---\s*\n#\s*FILE:\s*(\S+)\s*\n']. *)
Definition file_pattern : regex :=
  (lit "---" ++ [Star is_space; Chr nl] ++ lit "#" ++ [Star is_space]
     ++ lit "FILE:" ++ [Star is_space; CapPlus not_space; Star is_space; Chr nl])%list.

Definition FENCE : string := "```".

Module K8sGenerator.

(** [content.replace('```yaml', '').replace('```', '').strip()] *)
Definition clean_up (content : string) : string :=
  strip (replace (replace content (FENCE ++ "yaml") "") FENCE "").

(** The loop over [range(1, len(splits), 2)], on the splits from index 1
    on.  With a single element left, [i + 1 < len(splits)] is false and
    nothing is stored. *)
Fixpoint marker_loop (splits : list string) (manifests : dict) : dict :=
  match splits with
  | filename :: content :: rest =>
      let filename := strip filename in
      let content := strip content in
      let content := clean_up content in
      marker_loop rest (dict_set manifests filename content)
  | _ => manifests
  end.

(** [r'kind:\s*(\w+)'] *)
Definition kind_pattern : regex :=
  (lit "kind:" ++ [Star is_space; CapPlus is_word])%list.

(** The body of the fallback loop for the document at index [i]: the key
    and the value it stores.  No statement of the [try] can raise on a
    text, so the handler is never entered. *)
Definition name_document (i : nat) (doc : string) : string * string :=
  let doc := clean_up doc in
  match re_search kind_pattern doc with
  | Some (groups, _) =>
      let kind := lower (nth 0 groups EmptyString) in
      (kind ++ ".yaml", doc)
  | None => ("manifest-" ++ str_of_nat (i + 1) ++ ".yaml", doc)
  end.

Fixpoint fallback_loop (docs : list string) (i : nat) (manifests : dict) : dict :=
  match docs with
  | [] => manifests
  | doc :: rest =>
      let '(filename, doc) := name_document i doc in
      fallback_loop rest (S i) (dict_set manifests filename doc)
  end.

(** [[doc.strip() for doc in output.split('---') if doc.strip()]] *)
Definition documents (output : string) : list string :=
  map strip
    (filter (fun doc => negb (is_empty (strip doc))) (str_split output "---")).

Definition _parse_output (output : string) : dict :=
  let manifests := [] in
  let splits := re_split file_pattern output in
  let manifests := marker_loop (tl splits) manifests in
  if dict_is_empty manifests
  then fallback_loop (documents output) 0 manifests
  else manifests.

End K8sGenerator.

Module TerraformGenerator.

(** [content.replace('```hcl', '').replace('```terraform', '')
    .replace('```', '').strip()] *)
Definition clean_up (content : string) : string :=
  strip (replace (replace (replace content (FENCE ++ "hcl") "")
                    (FENCE ++ "terraform") "") FENCE "").

Fixpoint marker_loop (splits : list string) (tf_files : dict) : dict :=
  match splits with
  | filename :: content :: rest =>
      let filename := strip filename in
      let content := strip content in
      let content := clean_up content in
      marker_loop rest (dict_set tf_files filename content)
  | _ => tf_files
  end.

Definition _parse_output (output : string) : dict :=
  let tf_files := [] in
  let splits := re_split file_pattern output in
  let tf_files := marker_loop (tl splits) tf_files in
  if dict_is_empty tf_files
  then dict_set tf_files "main.tf" (clean_up output)
  else tf_files.

End TerraformGenerator.

(* ================================================================== *)
(** * Notions the statements use *)
(* ================================================================== *)

(** Every character is white space; the empty text included. *)
Fixpoint blank (s : string) : bool :=
  match s with
  | EmptyString => true
  | String c t => is_space c && blank t
  end.

(** [sub] occurs nowhere in [s]. *)
Definition absent (sub s : string) : Prop := str_in sub s = false.

Section Positions.

Variable p : string -> bool.

(** [i] is the position of the first, of the last, line with [p]. *)
Definition first_at (lines : list string) (i : nat) : Prop :=
  (exists l, nth_error lines i = Some l /\ p l = true)
  /\ forall j l, nth_error lines j = Some l -> p l = true -> i <= j.

Definition last_at (lines : list string) (i : nat) : Prop :=
  (exists l, nth_error lines i = Some l /\ p l = true)
  /\ forall j l, nth_error lines j = Some l -> p l = true -> j <= i.

Fixpoint first_index (lines : list string) : option nat :=
  match lines with
  | [] => None
  | l :: r => if p l then Some 0 else option_map S (first_index r)
  end.

Fixpoint last_index (lines : list string) : option nat :=
  match lines with
  | [] => None
  | l :: r =>
      match last_index r with
      | Some k => Some (S k)
      | None => if p l then Some 0 else None
      end
  end.

End Positions.

(** A line whose trimmed form starts with the copy, the run, directive. *)
Definition copy_line (line : string) : bool := startswith (strip line) "COPY".
Definition run_line (line : string) : bool := startswith (strip line) "RUN".

(** The lines [validate_dockerfile] works on. *)
Definition dockerfile_lines (content : string) : list string :=
  str_split (strip content) NL.

(** A Deployment whose pod template is an empty mapping, as text and as
    the document the loader makes of it. *)
Definition bare_deployment_text : string :=
  "apiVersion: apps/v1" ++ NL ++
  "kind: Deployment" ++ NL ++
  "metadata:" ++ NL ++
  "  name: web" ++ NL ++
  "spec:" ++ NL ++
  "  replicas: 1" ++ NL ++
  "  template: {}" ++ NL.

Definition bare_deployment : yaml :=
  YMap [ (YStr "apiVersion", YStr "apps/v1");
         (YStr "kind", YStr "Deployment");
         (YStr "metadata", YMap [ (YStr "name", YStr "web") ]);
         (YStr "spec", YMap [ (YStr "replicas", YScalar (SInt 1));
                              (YStr "template", YMap []) ]) ].

(** A text with a scalar of the shape of a date that is no date: the
    constructor of the loader calls [datetime.date(2024, 2, 30)], which
    raises [ValueError]. *)
Definition impossible_date_text : string :=
  "apiVersion: v1" ++ NL ++
  "kind: ConfigMap" ++ NL ++
  "metadata:" ++ NL ++
  "  name: web" ++ NL ++
  "data:" ++ NL ++
  "  built: 2024-02-30" ++ NL.

Definition impossible_date_error : exn :=
  mk_exn (OtherError "ValueError") "day is out of range for month".

(** The loader on the texts the instances below use; it knows no other
    text and reports a syntax error on it. *)
Definition sample_load (content : string) : loaded :=
  if String.eqb content bare_deployment_text then Document bare_deployment
  else if String.eqb content impossible_date_text then Throws impossible_date_error
  else if String.eqb content "replicas: 3"
       then Document (YMap [ (YStr "replicas", YScalar (SInt 3)) ])
  else Throws (mk_exn YAMLError "text unknown to the sample loader").

(** The step from a mapping to the value under a key. *)
Definition child (v : yaml) (key : string) : option yaml :=
  match v with
  | YMap items => map_lookup items key
  | _ => None
  end.

(** The value at the end of a path of keys, when every step is there. *)
Fixpoint at_path (v : yaml) (path : list string) : option yaml :=
  match path with
  | [] => Some v
  | key :: rest =>
      match child v key with
      | Some w => at_path w rest
      | None => None
      end
  end.

(** The metadata check of [inspect] does not raise: there is no
    [metadata], or it is a value that [in] accepts. *)
Definition metadata_checkable (items : list (yaml * yaml)) : Prop :=
  match map_lookup items "metadata" with
  | None => True
  | Some metadata => exists b, py_in "name" metadata = inr b
  end.

(** The value the Deployment branch tests for [securityContext]:
    [spec.template.spec], or the empty mapping when the template has no
    such key. *)
Definition pod_spec_or_empty (template : list (yaml * yaml)) : yaml :=
  match map_lookup template "spec" with
  | Some v => v
  | None => YMap []
  end.

(** What makes the Deployment branch suggest a security context: [spec]
    is a mapping, its [template] is a mapping, and [in] finds no
    [securityContext] in the pod spec (or in the empty mapping). *)
Definition wants_security_context (items : list (yaml * yaml)) : Prop :=
  exists spec template,
    map_lookup items "spec" = Some (YMap spec)
    /\ map_lookup spec "template" = Some (YMap template)
    /\ py_in "securityContext" (pod_spec_or_empty template) = inr false.

(** ** The assignments [_parse_output] makes *)

(** [manifests[k] = v] for an entry [(k, v)]. *)
Definition store (d : dict) (entry : string * string) : dict :=
  dict_set d (fst entry) (snd entry).

(** The value of the last entry with key [k]. *)
Fixpoint last_value (entries : list (string * string)) (k : string) : option string :=
  match entries with
  | [] => None
  | (k', v) :: r =>
      match last_value r k with
      | Some x => Some x
      | None => if String.eqb k' k then Some v else None
      end
  end.

(** The entries of the file markers: after each match of the marker
    pattern the file name it declares and the content behind it. *)
Fixpoint marker_pairs (splits : list string) : list (string * string) :=
  match splits with
  | filename :: content :: rest =>
      (strip filename, K8sGenerator.clean_up (strip content)) :: marker_pairs rest
  | _ => []
  end.

Definition marker_entries (output : string) : list (string * string) :=
  marker_pairs (tl (re_split file_pattern output)).

(** The entries of the fragments, the first of which has index [i]. *)
Fixpoint named_from (docs : list string) (i : nat) : list (string * string) :=
  match docs with
  | [] => []
  | doc :: rest => K8sGenerator.name_document i doc :: named_from rest (S i)
  end.

Definition fragment_entries (output : string) : list (string * string) :=
  named_from (K8sGenerator.documents output) 0.

(** The occurrences that count: the markers, or the fragments when there
    is no marker. *)
Definition k8s_entries (output : string) : list (string * string) :=
  match marker_entries output with
  | [] => fragment_entries output
  | entries => entries
  end.

(** A well-formed marker: the separator line and the line that names the
    file. *)
Definition marker (filename : string) : string :=
  "---" ++ NL ++ "# FILE: " ++ filename ++ NL.

(** Two markers of one file, each with a content. *)
Definition twice_the_same_file : string :=
  marker "app.yaml" ++ "replicas: 1" ++ NL ++ marker "app.yaml" ++ "replicas: 2" ++ NL.

(** Every character of the text is in the class. *)
Fixpoint all_chars (cls : ascii -> bool) (s : string) : bool :=
  match s with
  | EmptyString => true
  | String c t => cls c && all_chars cls t
  end.

(** A file name as a marker declares it: a non-empty run of characters
    that are no white space. *)
Definition token (f : string) : Prop :=
  f <> EmptyString /\ all_chars not_space f = true.

(** A well-formed marker for each file, followed by the content of the
    file. *)
Fixpoint render (files : list (string * string)) : string :=
  match files with
  | [] => EmptyString
  | (f, c) :: r => marker f ++ c ++ render r
  end.

(** The entry the splitter makes of a file. *)
Definition cleaned (file : string * string) : string * string :=
  (fst file, K8sGenerator.clean_up (strip (snd file))).

(** A file as [render] takes it: the name is a token and the content has
    no separator. *)
Definition plain_file (file : string * string) : Prop :=
  token (fst file) /\ absent "---" (snd file).

(** [x] put in front of the first piece. *)
Definition prepend (x : string) (pieces : list string) : list string :=
  match pieces with
  | [] => [x]
  | h :: r => (x ++ h) :: r
  end.

(** The text is empty or starts with a character that is no white
    space. *)
Definition clean_head (s : string) : Prop :=
  match s with
  | EmptyString => True
  | String c _ => is_space c = false
  end.

(** The number of groups of a pattern. *)
Fixpoint group_count (p : regex) : nat :=
  match p with
  | [] => 0
  | CapPlus _ :: p' => S (group_count p')
  | _ :: p' => group_count p'
  end.

(** The end of the marker pattern, [\s*\n], and its part from the file
    name on, [\s*(\S+)\s*\n]. *)
Definition tail_pattern : regex := [Star is_space; Chr nl].
Definition name_pattern : regex :=
  (Star is_space :: CapPlus not_space :: tail_pattern)%list.

(** ** The kind of a fragment *)

(** The text does not start with a character of the class. *)
Definition stops (cls : ascii -> bool) (s : string) : Prop :=
  match s with
  | EmptyString => True
  | String a _ => cls a = false
  end.

(** The text starts with [kind:], white space if any, and the identifier
    [ident], which ends there. *)
Definition kind_here (s ident : string) : Prop :=
  exists sp rest,
    s = "kind:" ++ sp ++ ident ++ rest
    /\ blank sp = true
    /\ ident <> EmptyString
    /\ all_chars is_word ident = true
    /\ stops is_word rest.

(** [ident] is the identifier at the first place of [doc] that has one
    behind [kind:]. *)
Definition first_kind (doc ident : string) : Prop :=
  exists before s,
    doc = before ++ s
    /\ kind_here s ident
    /\ forall before' s' ident',
         doc = before' ++ s' ->
         String.length before' < String.length before ->
         ~ kind_here s' ident'.

(** No place of [doc] has an identifier behind [kind:]. *)
Definition no_kind (doc : string) : Prop :=
  forall before s ident, doc = before ++ s -> ~ kind_here s ident.

(** The raw text of the specification's scenario for the fallback. *)
Definition two_fragments : string :=
  "---" ++ NL ++ "kind: Pod" ++ NL ++ "x: 1" ++ NL ++ "---" ++ NL ++ "y: 2".

(** ** Auxiliary notions *)

(** [valid] says that there is no error. *)
Definition consistent (r : ValidationResult) : Prop :=
  valid r = true <-> errors r = [].

Definition tick : ascii := "`"%char.

(** The number of backticks the text starts with. *)
Fixpoint ticks (s : string) : nat :=
  match s with
  | EmptyString => 0
  | String c t => if Ascii.eqb c tick then S (ticks t) else 0
  end.

(* ================================================================== *)
(** * The other generators and the documentation links *)
(* ================================================================== *)

Module DockerGenerator.

(** The clean-up of [generate]:
  [dockerfile.replace('```dockerfile', '').replace('```', '').strip()] *)
Definition clean_up (dockerfile : string) : string :=
strip (replace (replace dockerfile (FENCE ++ "dockerfile") "") FENCE "").

End DockerGenerator.

Module CICDGenerator.

(** The clean-up of [generate]:
  [pipeline.replace('```yaml', '').replace('```', '').strip()] *)
Definition clean_up (pipeline : string) : string :=
strip (replace (replace pipeline (FENCE ++ "yaml") "") FENCE "").

End CICDGenerator.

(** [src/src/doc_linker.py] *)
Module DocLinker.

Definition K8S_DOC_LINKS : list (string * string) :=
[ ("apiVersion", "https://kubernetes.io/docs/reference/kubernetes-api/");
  ("Deployment", "https://kubernetes.io/docs/concepts/workloads/controllers/deployment/");
  ("spec.replicas", "https://kubernetes.io/docs/concepts/workloads/controllers/deployment/#replicas");
  ("spec.strategy", "https://kubernetes.io/docs/concepts/workloads/controllers/deployment/#strategy");
  ("containers", "https://kubernetes.io/docs/concepts/containers/");
  ("image", "https://kubernetes.io/docs/concepts/containers/images/");
  ("livenessProbe", "https://kubernetes.io/docs/tasks/configure-pod-container/configure-liveness-readiness-startup-probes/");
  ("readinessProbe", "https://kubernetes.io/docs/tasks/configure-pod-container/configure-liveness-readiness-startup-probes/#define-readiness-probes");
  ("resources", "https://kubernetes.io/docs/concepts/configuration/manage-resources-containers/");
  ("resources.requests", "https://kubernetes.io/docs/concepts/configuration/manage-resources-containers/#resource-requests-and-limits-of-pod-and-container");
  ("resources.limits", "https://kubernetes.io/docs/concepts/configuration/manage-resources-containers/#resource-requests-and-limits-of-pod-and-container");
  ("securityContext", "https://kubernetes.io/docs/tasks/configure-pod-container/security-context/");
  ("runAsNonRoot", "https://kubernetes.io/docs/tasks/configure-pod-container/security-context/#set-the-security-context-for-a-pod");
  ("Service", "https://kubernetes.io/docs/concepts/services-networking/service/");
  ("Service.type", "https://kubernetes.io/docs/concepts/services-networking/service/#publishing-services-service-types");
  ("ConfigMap", "https://kubernetes.io/docs/concepts/configuration/configmap/");
  ("namespace", "https://kubernetes.io/docs/concepts/overview/working-with-objects/namespaces/");
  ("labels", "https://kubernetes.io/docs/concepts/overview/working-with-objects/labels/");
  ("selector", "https://kubernetes.io/docs/concepts/overview/working-with-objects/labels/#label-selectors") ].

Definition TERRAFORM_DOC_LINKS : list (string * string) :=
[ ("aws_vpc", "https://registry.terraform.io/providers/hashicorp/aws/latest/docs/resources/vpc");
  ("aws_subnet", "https://registry.terraform.io/providers/hashicorp/aws/latest/docs/resources/subnet");
  ("aws_internet_gateway", "https://registry.terraform.io/providers/hashicorp/aws/latest/docs/resources/internet_gateway");
  ("aws_route_table", "https://registry.terraform.io/providers/hashicorp/aws/latest/docs/resources/route_table");
  ("aws_security_group", "https://registry.terraform.io/providers/hashicorp/aws/latest/docs/resources/security_group");
  ("aws_db_instance", "https://registry.terraform.io/providers/hashicorp/aws/latest/docs/resources/db_instance");
  ("aws_rds_cluster", "https://registry.terraform.io/providers/hashicorp/aws/latest/docs/resources/rds_cluster");
  ("variable", "https://developer.hashicorp.com/terraform/language/values/variables");
  ("output", "https://developer.hashicorp.com/terraform/language/values/outputs");
  ("provider", "https://developer.hashicorp.com/terraform/language/providers") ].

Definition DOCKER_DOC_LINKS : list (string * string) :=
[ ("FROM", "https://docs.docker.com/engine/reference/builder/#from");
  ("RUN", "https://docs.docker.com/engine/reference/builder/#run");
  ("COPY", "https://docs.docker.com/engine/reference/builder/#copy");
  ("ADD", "https://docs.docker.com/engine/reference/builder/#add");
  ("WORKDIR", "https://docs.docker.com/engine/reference/builder/#workdir");
  ("ENV", "https://docs.docker.com/engine/reference/builder/#env");
  ("EXPOSE", "https://docs.docker.com/engine/reference/builder/#expose");
  ("ENTRYPOINT", "https://docs.docker.com/engine/reference/builder/#entrypoint");
  ("CMD", "https://docs.docker.com/engine/reference/builder/#cmd");
  ("USER", "https://docs.docker.com/engine/reference/builder/#user");
  ("HEALTHCHECK", "https://docs.docker.com/engine/reference/builder/#healthcheck");
  ("multi-stage", "https://docs.docker.com/develop/develop-images/multistage-build/");
  ("best-practices", "https://docs.docker.com/develop/dev-best-practices/dockerfile-best-practices/") ].

Definition CICD_DOC_LINKS : list (string * string) :=
[ ("github-actions", "https://docs.github.com/en/actions");
  ("workflow-syntax", "https://docs.github.com/en/actions/using-workflows/workflow-syntax-for-github-actions");
  ("gitlab-ci", "https://docs.gitlab.com/ee/ci/");
  ("gitlab-ci-yaml", "https://docs.gitlab.com/ee/ci/yaml/") ].

Definition link_maps : list (string * list (string * string)) :=
[ ("kubernetes", K8S_DOC_LINKS);
  ("terraform", TERRAFORM_DOC_LINKS);
  ("docker", DOCKER_DOC_LINKS);
  ("cicd", CICD_DOC_LINKS) ].

Definition get_doc_link (field infra_type : string) : string :=
let links := table_get link_maps infra_type K8S_DOC_LINKS in
table_get links field "https://kubernetes.io/docs/".

Definition format_doc_comment (field infra_type : string) : string :=
let link := get_doc_link field infra_type in
"# Reference: " ++ link.

End DocLinker.

Module TerraformEntries.

(** The entries of the file markers for the Terraform parser. *)
Fixpoint marker_pairs (splits : list string) : list (string * string) :=
match splits with
| filename :: content :: rest =>
    (strip filename, TerraformGenerator.clean_up (strip content))
      :: marker_pairs rest
| _ => []
end.

Definition marker_entries (output : string) : list (string * string) :=
marker_pairs (tl (re_split file_pattern output)).

(** The entry the Terraform parser makes of a file. *)
Definition cleaned (file : string * string) : string * string :=
(fst file, TerraformGenerator.clean_up (strip (snd file))).

End TerraformEntries.

(* ================================================================== *)
(** * More notions for the statements *)
(* ================================================================== *)

(** [sub] occurs in [s]. *)
Definition occurs (sub s : string) : Prop :=
  exists before behind, s = before ++ sub ++ behind.

(** [s] ends with [suffix]. *)
Definition ends_with (s suffix : string) : Prop :=
  exists before, s = before ++ suffix.

(** The number of characters of [s] that are [c]. *)
Fixpoint count_char (c : ascii) (s : string) : nat :=
  match s with
  | EmptyString => 0
  | String a t => (if Ascii.eqb a c then 1 else 0) + count_char c t
  end.

(** A result that has the errors [es] and nothing else. *)
Definition errors_only (es : list string) : ValidationResult :=
  {| valid := match es with [] => true | _ :: _ => false end;
     errors := es; warnings := []; suggestions := [] |}.

(** The key is in the mapping. *)
Definition has_key (items : list (yaml * yaml)) (key : string) : bool :=
  match map_lookup items key with Some _ => true | None => false end.

(** The errors of the checks of the required fields on a mapping. *)
Definition required_errors (items : list (yaml * yaml)) : list string :=
  ((if has_key items "apiVersion" then []
    else ["Missing required field: apiVersion"])
   ++ (if has_key items "kind" then []
       else ["Missing required field: kind"])
   ++ (if has_key items "metadata" then []
       else ["Missing required field: metadata"])
   ++ match map_lookup items "metadata" with
      | Some metadata =>
          match py_in "name" metadata with
          | inr false => ["Missing required field: metadata.name"]
          | _ => []
          end
      | None => []
      end)%list.

(** The value of [kind] is neither [Deployment] nor [Service], or there
    is no [kind]. *)
Definition other_kind (items : list (yaml * yaml)) : Prop :=
  match map_lookup items "kind" with
  | Some k => eq_str k "Deployment" = false /\ eq_str k "Service" = false
  | None => True
  end.

(** The errors of the Service branch. *)
Definition service_errors (items : list (yaml * yaml)) : list string :=
  match map_lookup items "spec" with
  | None => ["Service missing spec field"]
  | Some spec =>
      match py_in "ports" spec with
      | inr true => []
      | inr false => ["Service spec missing ports"]
      | inl e => ["Validation error: " ++ exn_str e]
      end
  end.

(** The warnings of the Deployment branch. *)
Definition replicas_warning (items : list (yaml * yaml)) : list string :=
  match map_lookup items "spec" with
  | Some spec =>
      match py_in "replicas" spec with
      | inr false => [MSG_REPLICAS]
      | _ => []
      end
  | None => []
  end.

(** A character of a file name that the fallback derives. *)
Definition name_char (c : ascii) : bool :=
  is_word c || Ascii.eqb c "-" || Ascii.eqb c ".".

(** The pieces [re.split] makes of the files of a rendered text: the
    name of each file and a content that differs from the content of the
    file by white space in front at most. *)
Inductive pieces_of : list string -> list (string * string) -> Prop :=
| pieces_nil : pieces_of [] []
| pieces_cons f c c' pieces files :
    lstrip c' = lstrip c ->
    pieces_of pieces files ->
    pieces_of (f :: c' :: pieces) ((f, c) :: files).

(** Behind the first piece, every group of a split has [P]. *)
Fixpoint groups_have (P : string -> Prop) (pieces : list string) : Prop :=
  match pieces with
  | g :: _ :: rest => P g /\ groups_have P rest
  | _ => True
  end.

(** Texts for the instances: a Service without [spec], a Deployment
    without [replicas], and what the loader makes of them. *)
Definition service_text : string :=
  "apiVersion: v1" ++ NL ++ "kind: Service" ++ NL ++
  "metadata:" ++ NL ++ "  name: x" ++ NL.

Definition service_items : list (yaml * yaml) :=
  [ (YStr "apiVersion", YStr "v1");
    (YStr "kind", YStr "Service");
    (YStr "metadata", YMap [ (YStr "name", YStr "x") ]) ].

Definition configmap_text : string :=
  "kind: ConfigMap" ++ NL ++ "metadata: {}" ++ NL.

Definition configmap_items : list (yaml * yaml) :=
  [ (YStr "kind", YStr "ConfigMap"); (YStr "metadata", YMap []) ].

Definition deployment_text : string :=
  "apiVersion: apps/v1" ++ NL ++ "kind: Deployment" ++ NL ++
  "metadata:" ++ NL ++ "  name: web" ++ NL ++
  "spec:" ++ NL ++ "  template: web" ++ NL.

Definition deployment_items : list (yaml * yaml) :=
  [ (YStr "apiVersion", YStr "apps/v1");
    (YStr "kind", YStr "Deployment");
    (YStr "metadata", YMap [ (YStr "name", YStr "web") ]);
    (YStr "spec", YMap [ (YStr "template", YStr "web") ]) ].

Definition unclosed_text : string := "key: [1, 2".

(** The loader on these texts, on a list of two items and on the empty
    text, which loads as [None]. *)
Definition example_load (content : string) : loaded :=
  if String.eqb content service_text then Document (YMap service_items)
  else if String.eqb content configmap_text then Document (YMap configmap_items)
  else if String.eqb content deployment_text then Document (YMap deployment_items)
  else if String.eqb content ("- a" ++ NL ++ "- b")
       then Document (YSeq [YStr "a"; YStr "b"])
  else if String.eqb content "" then Document (YScalar SNone)
  else Throws (mk_exn YAMLError "while parsing a flow sequence").

(** A statement keeps a property of the result, whether it raises or
    not. *)
Definition keeps (P : ValidationResult -> Prop) {A : Type} (c : M A) : Prop :=
  forall r, P r -> P (snd (c r)).

(** The branch [inspect] takes on a mapping, by the value of [kind]. *)
Definition kind_branch (items : list (yaml * yaml)) : M unit :=
  match map_lookup items "kind" with
  | Some k =>
      if eq_str k "Deployment" then deployment_checks (YMap items)
      else if eq_str k "Service" then service_checks (YMap items)
      else ret tt
  | None => ret tt
  end.

(** The classes of the groups of a pattern, in order. *)
Fixpoint group_classes (p : regex) : list (ascii -> bool) :=
  match p with
  | [] => []
  | CapPlus cls :: p' => cls :: group_classes p'
  | _ :: p' => group_classes p'
  end.

(** A non-empty run of characters of the class. *)
Definition run_of (cls : ascii -> bool) (g : string) : Prop :=
  g <> EmptyString /\ all_chars cls g = true.

(** A Deployment that has all the validator looks for: the required
    fields, a name, and a spec with replicas and a template whose pod
    spec has a security context. *)
Definition complete_deployment (items : list (yaml * yaml)) : Prop :=
  has_key items "apiVersion" = true
  /\ map_lookup items "kind" = Some (YStr "Deployment")
  /\ (exists metadata, map_lookup items "metadata" = Some metadata
                       /\ py_in "name" metadata = inr true)
  /\ exists spec template pod_spec,
       map_lookup items "spec" = Some (YMap spec)
       /\ has_key spec "replicas" = true
       /\ map_lookup spec "template" = Some (YMap template)
       /\ map_lookup template "spec" = Some pod_spec
       /\ py_in "securityContext" pod_spec = inr true.

Definition full_deployment_text : string :=
  "apiVersion: apps/v1" ++ NL ++ "kind: Deployment" ++ NL ++
  "metadata:" ++ NL ++ "  name: web" ++ NL ++
  "spec:" ++ NL ++ "  replicas: 2" ++ NL ++ "  template:" ++ NL ++
  "    spec:" ++ NL ++ "      securityContext:" ++ NL ++
  "        runAsNonRoot: true" ++ NL.

Definition full_deployment_items : list (yaml * yaml) :=
  [ (YStr "apiVersion", YStr "apps/v1");
    (YStr "kind", YStr "Deployment");
    (YStr "metadata", YMap [ (YStr "name", YStr "web") ]);
    (YStr "spec",
     YMap [ (YStr "replicas", YScalar (SInt 2));
            (YStr "template",
             YMap [ (YStr "spec",
                     YMap [ (YStr "securityContext",
                             YMap [ (YStr "runAsNonRoot",
                                     YScalar (SBool true)) ]) ]) ]) ]) ].

(** The loader on the full Deployment. *)
Definition full_load (content : string) : loaded :=
  if String.eqb content full_deployment_text
  then Document (YMap full_deployment_items)
  else example_load content.

(* ================================================================== *)
(** * Facts on the text primitives *)
(* ================================================================== *)

Lemma lstrip_blank s : blank s = true -> lstrip s = EmptyString.
Proof.
  induction s as [|c t IH]; simpl; [reflexivity|].
  intros H. apply andb_true_iff in H as [Hc Ht]. rewrite Hc. auto.
Qed.

Lemma strip_blank s : blank s = true -> strip s = EmptyString.
Proof. intros H. unfold strip. rewrite lstrip_blank by assumption. reflexivity. Qed.

Lemma rstrip_empty_blank s : rstrip s = EmptyString -> blank s = true.
Proof.
  induction s as [|c t IH]; simpl; [reflexivity|].
  destruct (rstrip t) eqn:E; [|discriminate].
  destruct (is_space c); [|discriminate].
  intros _. simpl. auto.
Qed.

Lemma strip_empty_blank s : strip s = EmptyString -> blank s = true.
Proof.
  unfold strip. induction s as [|c t IH]; simpl; [reflexivity|].
  destruct (is_space c) eqn:E; simpl.
  - exact IH.
  - destruct (rstrip t); rewrite ?E; discriminate.
Qed.

(* ================================================================== *)
(** * The result container *)
(* ================================================================== *)

Lemma consistent_new : consistent new_result.
Proof. unfold consistent; simpl; tauto. Qed.

Lemma consistent_call r c : consistent r -> consistent (do_call r c).
Proof.
  unfold consistent. destruct c; simpl; try tauto.
  intros _. split; [discriminate|].
  intros H. apply app_eq_nil in H as [_ H]. discriminate.
Qed.

Lemma consistent_calls cs : forall r, consistent r -> consistent (fold_left do_call cs r).
Proof.
  induction cs as [|c cs IH]; simpl; intros r Hr; [assumption|].
  apply IH, consistent_call, Hr.
Qed.

(** C5.  After any sequence of [add_error], [add_warning] and
    [add_suggestion] calls on a fresh result, [valid] is true exactly when
    [errors] is empty; [add_error] clears [valid] and appends its message,
    [add_warning] and [add_suggestion] leave [valid] and [errors] as they
    are and append to their own list. *)
Theorem valid_iff_no_errors (cs : list call) :
  let r := run_calls cs in
  (valid r = true <-> errors r = [])
  /\ (forall m, valid (add_error r m) = false
                /\ errors (add_error r m) = (errors r ++ [m])%list)
  /\ (forall m, valid (add_warning r m) = valid r
                /\ errors (add_warning r m) = errors r
                /\ warnings (add_warning r m) = (warnings r ++ [m])%list)
  /\ (forall m, valid (add_suggestion r m) = valid r
                /\ errors (add_suggestion r m) = errors r
                /\ suggestions (add_suggestion r m) = (suggestions r ++ [m])%list).
Proof.
  intros r. split; [|repeat split].
  apply (consistent_calls cs new_result consistent_new).
Qed.

(* ================================================================== *)
(** * The Terraform validator *)
(* ================================================================== *)

(** C9.  On an empty or white-space-only text the Terraform validator
    gives an invalid result with the single error of the empty file, no
    warning and no suggestion. *)
Theorem terraform_blank_input (content : string) :
  blank content = true ->
  validate_terraform_syntax content
  = {| valid := false; errors := [MSG_EMPTY_TF]; warnings := []; suggestions := [] |}.
Proof.
  intros H. unfold validate_terraform_syntax.
  rewrite (strip_blank _ H). reflexivity.
Qed.

Lemma terraform_blank_input_witness :
  blank ("  " ++ NL) = true
  /\ validate_terraform_syntax ("  " ++ NL)
     = {| valid := false; errors := [MSG_EMPTY_TF]; warnings := []; suggestions := [] |}.
Proof.
  split; [reflexivity|].
  apply (terraform_blank_input ("  " ++ NL)). reflexivity.
Defined.

(** The early return is taken on the blank texts only. *)
Lemma terraform_early_return_only_blank content :
  is_empty (strip content) = true -> blank content = true.
Proof.
  intros H. apply strip_empty_blank.
  destruct (strip content); [reflexivity|discriminate].
Qed.

(* ================================================================== *)
(** * The Dockerfile validator *)
(* ================================================================== *)

Section PositionFacts.

Variable p : string -> bool.

Lemma first_index_at lines i : first_index p lines = Some i <-> first_at p lines i.
Proof.
  revert i. induction lines as [|l r IH]; intros i; simpl.
  - split; [discriminate|]. intros [[x [Hx _]] _]. destruct i; discriminate.
  - destruct (p l) eqn:Hl.
    + split.
      * intros [= <-]. split; [exists l; auto|]. intros; lia.
      * intros [_ Hmin]. specialize (Hmin 0 l eq_refl Hl).
        f_equal. lia.
    + assert (Htl : forall i x, nth_error (l :: r) i = Some x -> p x = true ->
                      exists i', i = S i' /\ nth_error r i' = Some x).
      { intros [|j] x Hx Hpx; simpl in Hx; [congruence|]. now exists j. }
      assert (Hshift : forall i', first_at p (l :: r) (S i') <-> first_at p r i').
      { intros i'. split; intros [[x [Hx Hpx]] Hmin].
        - split; [exists x; auto|].
          intros j y Hy Hpy. specialize (Hmin (S j) y Hy Hpy). lia.
        - split; [exists x; auto|].
          intros j y Hy Hpy. destruct (Htl j y Hy Hpy) as (j' & -> & Hj').
          specialize (Hmin j' y Hj' Hpy). lia. }
      split.
      * destruct (first_index p r) as [k|]; simpl; [|discriminate].
        intros [= <-]. apply Hshift, IH. reflexivity.
      * intros H. pose proof H as [[x [Hx Hpx]] _].
        destruct (Htl i x Hx Hpx) as (i' & -> & _).
        apply Hshift, IH in H. rewrite H. reflexivity.
Qed.

Lemma last_index_none lines :
  last_index p lines = None -> forall j l, nth_error lines j = Some l -> p l = false.
Proof.
  induction lines as [|x r IH]; simpl; intros H j l Hj.
  - destruct j; discriminate.
  - destruct (last_index p r); [discriminate|].
    destruct (p x) eqn:Hx; [discriminate|].
    destruct j; simpl in Hj; [congruence|]. eapply IH; eauto.
Qed.

Lemma last_index_at lines i : last_index p lines = Some i <-> last_at p lines i.
Proof.
  revert i. induction lines as [|x r IH]; intros i; simpl.
  - split; [discriminate|]. intros [[y [Hy _]] _]. destruct i; discriminate.
  - destruct (last_index p r) as [k|] eqn:Hk.
    + pose proof (proj1 (IH k) eq_refl) as [[z [Hz Hpz]] Hmaxk].
      split.
      * intros [= <-]. split; [exists z; auto|].
        intros [|j] y Hy Hpy; [lia|]. simpl in Hy.
        specialize (Hmaxk j y Hy Hpy). lia.
      * intros [[y [Hy Hpy]] Hmax].
        pose proof (Hmax (S k) z Hz Hpz) as Hle.
        destruct i as [|i]; [lia|]. simpl in Hy.
        specialize (Hmaxk i y Hy Hpy). f_equal. lia.
    + pose proof (last_index_none r Hk) as Hnone.
      destruct (p x) eqn:Hx.
      * split.
        -- intros [= <-]. split; [exists x; auto|].
           intros [|j] z Hz Hpz; [lia|]. simpl in Hz.
           rewrite (Hnone j z Hz) in Hpz. discriminate.
        -- intros [[y [Hy Hpy]] _]. destruct i as [|i]; [reflexivity|].
           simpl in Hy. rewrite (Hnone i y Hy) in Hpy. discriminate.
      * split; [discriminate|].
        intros [[y [Hy Hpy]] _]. destruct i as [|i]; simpl in Hy.
        -- congruence.
        -- rewrite (Hnone i y Hy) in Hpy. discriminate.
Qed.

End PositionFacts.

Lemma copy_not_run line : copy_line line = true -> run_line line = false.
Proof.
  unfold copy_line, run_line. destruct (strip line) as [|a t]; simpl; [discriminate|].
  destruct (Ascii.eqb_spec a "C"); [subst; reflexivity|discriminate].
Qed.

(** What the loop leaves in [copy_index] and [run_index]. *)
Lemma layer_scan_spec lines : forall i c r,
  (0 <= i)%Z ->
  layer_scan lines i c r
  = (match last_index copy_line lines with
     | Some k => (i + Z.of_nat k)%Z
     | None => c
     end,
     if (r =? -1)%Z
     then match first_index run_line lines with
          | Some k => (i + Z.of_nat k)%Z
          | None => (-1)%Z
          end
     else r).
Proof.
  induction lines as [|l rest IH]; intros i c r Hi.
  - simpl. destruct (Z.eqb_spec r (-1)); congruence.
  - cbn [layer_scan last_index first_index].
    change (startswith (strip l) "COPY") with (copy_line l).
    change (startswith (strip l) "RUN") with (run_line l).
    destruct (copy_line l) eqn:Hc.
    + rewrite (copy_not_run _ Hc). rewrite IH by lia.
      destruct (last_index copy_line rest) as [k|];
        destruct (Z.eqb_spec r (-1));
        destruct (first_index run_line rest) as [k'|]; simpl;
        f_equal; lia.
    + destruct (run_line l) eqn:Hr; simpl.
      * destruct (Z.eqb_spec r (-1)); simpl; rewrite IH by lia.
        -- destruct (Z.eqb_spec i (-1)); [lia|].
           destruct (last_index copy_line rest) as [k|]; f_equal; lia.
        -- destruct (Z.eqb_spec r (-1)); [lia|].
           destruct (last_index copy_line rest) as [k|]; f_equal; lia.
      * rewrite IH by lia.
        destruct (last_index copy_line rest) as [k|];
          destruct (Z.eqb_spec r (-1));
          destruct (first_index run_line rest) as [k'|]; simpl;
          f_equal; lia.
Qed.

Lemma layer_message_distinct :
  MSG_LAYER <> MSG_WORKDIR /\ MSG_LAYER <> MSG_USER.
Proof. split; discriminate. Qed.

(** The layer-caching suggestion is the last step of the validator. *)
Lemma dockerfile_layer_suggestion content :
  In MSG_LAYER (suggestions (validate_dockerfile content))
  <-> exists ci ri,
        last_index copy_line (dockerfile_lines content) = Some ci
        /\ first_index run_line (dockerfile_lines content) = Some ri
        /\ ri < ci.
Proof.
  destruct layer_message_distinct as [D1 D2].
  unfold validate_dockerfile. fold (dockerfile_lines content).
  rewrite layer_scan_spec by lia. simpl (_ =? _)%Z. cbv iota.
  set (lines := dockerfile_lines content).
  destruct (last_index copy_line lines) as [ci|];
    destruct (first_index run_line lines) as [ri|].
  - destruct (Z.gtb_spec (0 + Z.of_nat ci) (-1)); [|lia].
    destruct (Z.gtb_spec (0 + Z.of_nat ri) (-1)); [|lia].
    destruct (Z.gtb_spec (0 + Z.of_nat ci) (0 + Z.of_nat ri)); simpl.
    + split.
      * intros _. exists ci, ri. repeat split. lia.
      * intros _. destruct (existsb _ lines), (str_in "WORKDIR" content),
          (str_in "USER" content); simpl; auto 6.
    + split.
      * destruct (existsb _ lines), (str_in "WORKDIR" content),
          (str_in "USER" content); simpl; intuition congruence.
      * intros (ci' & ri' & [= <-] & [= <-] & Hlt). lia.
  - simpl. replace ((-1 >? -1)%Z) with false by reflexivity.
    rewrite andb_false_r. simpl. split.
    + destruct (existsb _ lines), (str_in "WORKDIR" content),
        (str_in "USER" content); simpl; intuition congruence.
    + intros (ci' & ri' & _ & [=] & _).
  - replace ((-1 >? -1)%Z) with false by reflexivity. simpl. split.
    + destruct (existsb _ lines), (str_in "WORKDIR" content),
        (str_in "USER" content); simpl; intuition congruence.
    + intros (ci' & ri' & [=] & _).
  - replace ((-1 >? -1)%Z) with false by reflexivity. simpl. split.
    + destruct (existsb _ lines), (str_in "WORKDIR" content),
        (str_in "USER" content); simpl; intuition congruence.
    + intros (ci' & ri' & [=] & _).
Qed.

(** C8.  The layer-caching suggestion is given exactly when some line
    starts (once trimmed) with COPY, some line starts with RUN, and the
    last such COPY line comes after the first such RUN line; the two
    recipes of the specification are instances. *)
Theorem dockerfile_layer_caching (content : string) :
  (In MSG_LAYER (suggestions (validate_dockerfile content))
   <-> exists ci ri,
         last_at copy_line (dockerfile_lines content) ci
         /\ first_at run_line (dockerfile_lines content) ri
         /\ ri < ci)
  /\ In MSG_LAYER
       (suggestions (validate_dockerfile ("RUN make" ++ NL ++ "COPY . .")))
  /\ ~ In MSG_LAYER
       (suggestions
          (validate_dockerfile
             ("FROM alpine" ++ NL ++ "COPY . ." ++ NL ++ "RUN make"))).
Proof.
  split; [|split].
  - rewrite dockerfile_layer_suggestion. split.
    + intros (ci & ri & Hc & Hr & Hlt). exists ci, ri.
      rewrite <- last_index_at, <- first_index_at. auto.
    + intros (ci & ri & Hc & Hr & Hlt). exists ci, ri.
      rewrite last_index_at, first_index_at. auto.
  - vm_compute. auto.
  - vm_compute. intuition discriminate.
Qed.

(* ================================================================== *)
(** * The validators that parse YAML *)
(* ================================================================== *)

Section LoaderFacts.

Variable safe_load : string -> loaded.

Lemma yaml_syntax_cases content :
  match safe_load content with
  | Document _ => validate_yaml_syntax safe_load content = Returned new_result
  | Throws e =>
      if is_YAMLError e
      then validate_yaml_syntax safe_load content
           = Returned (add_error new_result ("YAML syntax error: " ++ exn_str e))
      else validate_yaml_syntax safe_load content = Raised e
  end.
Proof.
  unfold validate_yaml_syntax. destruct (safe_load content) as [v|e]; [reflexivity|].
  destruct (is_YAMLError e); reflexivity.
Qed.

(** When the loader gives a document or a YAML error, the manifest
    validator returns a result. *)
Lemma kubernetes_validator_returns content :
  (forall e, safe_load content = Throws e -> is_YAMLError e = true) ->
  exists r, validate_kubernetes_manifest safe_load content = Returned r.
Proof.
  intros H. unfold validate_kubernetes_manifest, validate_yaml_syntax.
  destruct (safe_load content) as [v|e] eqn:E.
  - simpl. destruct (try_body safe_load content new_result) as [[e|u] r]; eauto.
  - rewrite (H e eq_refl). simpl. eauto.
Qed.

(** A fault of the inspection becomes one more entry of [errors], behind
    what the inspection had added. *)
Lemma kubernetes_validator_fault content v e r :
  safe_load content = Document v ->
  inspect v new_result = (inl e, r) ->
  validate_kubernetes_manifest safe_load content
  = Returned (add_error r ("Validation error: " ++ exn_str e)).
Proof.
  intros Hl Hi. unfold validate_kubernetes_manifest, validate_yaml_syntax, try_body.
  rewrite Hl. simpl. unfold bind, eval. rewrite Hi. reflexivity.
Qed.

Lemma kubernetes_validator_clean content v u r :
  safe_load content = Document v ->
  inspect v new_result = (inr u, r) ->
  validate_kubernetes_manifest safe_load content = Returned r.
Proof.
  intros Hl Hi. unfold validate_kubernetes_manifest, validate_yaml_syntax, try_body.
  rewrite Hl. simpl. unfold bind, eval. rewrite Hi. reflexivity.
Qed.

End LoaderFacts.

(** An empty document loads as [None]; the inspection faults at once and
    the validator reports it. *)
Example kubernetes_validator_on_none :
  validate_kubernetes_manifest (fun _ => Document (YScalar SNone)) ""
  = Returned
      {| valid := false;
         errors := ["Validation error: argument of type 'NoneType' is not iterable"];
         warnings := []; suggestions := [] |}.
Proof. reflexivity. Qed.

(** C4.  The manifest validator does raise: an exception of the loader
    that is not a [yaml.YAMLError] passes the handler of the syntax check,
    which is called outside the [try]. *)
Theorem kubernetes_validator_raises
    (safe_load : string -> loaded) (content : string) (e : exn) :
  safe_load content = Throws e ->
  is_YAMLError e = false ->
  validate_kubernetes_manifest safe_load content = Raised e.
Proof.
  intros Hl He. unfold validate_kubernetes_manifest, validate_yaml_syntax.
  rewrite Hl, He. reflexivity.
Qed.

Lemma kubernetes_validator_raises_witness :
  sample_load impossible_date_text = Throws impossible_date_error
  /\ is_YAMLError impossible_date_error = false
  /\ validate_kubernetes_manifest sample_load impossible_date_text
     = Raised impossible_date_error.
Proof.
  split; [reflexivity|]. split; [reflexivity|].
  apply (kubernetes_validator_raises sample_load impossible_date_text
           impossible_date_error); reflexivity.
Defined.

(** For a code type that is none of kubernetes, terraform and docker the
    dispatcher does what the YAML syntax validator does on the content; a
    result it returns has no warning, no suggestion and at most one
    error, which is there exactly on a YAML error of the loader; it
    returns no result when the loader raises something else. *)
Theorem dispatcher_default
    (safe_load : string -> loaded) (content code_type : string) :
  code_type <> "kubernetes" -> code_type <> "terraform" -> code_type <> "docker" ->
  validate_generated_code safe_load content code_type
  = validate_yaml_syntax safe_load content
  /\ match validate_yaml_syntax safe_load content with
     | Returned r =>
         List.length (errors r) <= 1 /\ warnings r = [] /\ suggestions r = []
         /\ (errors r <> [] <->
             exists e, safe_load content = Throws e /\ is_YAMLError e = true)
     | Raised e => safe_load content = Throws e /\ is_YAMLError e = false
     end.
Proof.
  intros Hk Ht Hd. split.
  - apply String.eqb_neq in Hk, Ht, Hd.
    rewrite String.eqb_sym in Hk. rewrite String.eqb_sym in Ht.
    rewrite String.eqb_sym in Hd.
    unfold validate_generated_code, validators. cbn [table_get].
    rewrite Hk, Ht, Hd. reflexivity.
  - unfold validate_yaml_syntax. destruct (safe_load content) as [v|e].
    + simpl. repeat split; auto.
      * intros H; contradiction.
      * intros (e & [=] & _).
    + destruct (is_YAMLError e) eqn:E; simpl.
      * repeat split; auto.
        -- intros _. exists e. auto.
        -- intros _. discriminate.
      * auto.
Qed.

Lemma dispatcher_default_witness :
  validate_generated_code sample_load "replicas: 3" "helm"
  = validate_yaml_syntax sample_load "replicas: 3"
  /\ validate_generated_code sample_load "replicas: 3" "helm" = Returned new_result.
Proof.
  split; [|reflexivity].
  apply (dispatcher_default sample_load "replicas: 3" "helm"); discriminate.
Defined.

(** C10.  The dispatcher does not return a result for every content: for
    a code type that is none of kubernetes, terraform and docker it calls
    the YAML syntax validator, whose handler catches [yaml.YAMLError]
    only, so an exception of the loader that is no [yaml.YAMLError]
    leaves the syntax validator and the dispatcher, and there is no
    result whose errors could be counted. *)
Theorem dispatcher_default_raises
    (safe_load : string -> loaded) (content code_type : string) (e : exn) :
  code_type <> "kubernetes" -> code_type <> "terraform" -> code_type <> "docker" ->
  safe_load content = Throws e ->
  is_YAMLError e = false ->
  validate_yaml_syntax safe_load content = Raised e
  /\ validate_generated_code safe_load content code_type = Raised e
  /\ forall r, validate_generated_code safe_load content code_type <> Returned r.
Proof.
  intros Hk Ht Hd Hl He.
  assert (Hy : validate_yaml_syntax safe_load content = Raised e).
  { unfold validate_yaml_syntax. rewrite Hl, He. reflexivity. }
  assert (Hg : validate_generated_code safe_load content code_type = Raised e).
  { rewrite <- Hy.
    apply String.eqb_neq in Hk, Ht, Hd.
    rewrite String.eqb_sym in Hk. rewrite String.eqb_sym in Ht.
    rewrite String.eqb_sym in Hd.
    unfold validate_generated_code, validators. cbn [table_get].
    rewrite Hk, Ht, Hd. reflexivity. }
  split; [exact Hy|]. split; [exact Hg|].
  intros r H. rewrite Hg in H. discriminate H.
Qed.

Lemma dispatcher_default_raises_witness :
  sample_load impossible_date_text = Throws impossible_date_error
  /\ is_YAMLError impossible_date_error = false
  /\ validate_yaml_syntax sample_load impossible_date_text
     = Raised impossible_date_error
  /\ validate_generated_code sample_load impossible_date_text "helm"
     = Raised impossible_date_error
  /\ forall r,
       validate_generated_code sample_load impossible_date_text "helm"
       <> Returned r.
Proof.
  split; [reflexivity|]. split; [reflexivity|].
  apply (dispatcher_default_raises sample_load impossible_date_text "helm"
           impossible_date_error);
    [discriminate|discriminate|discriminate|reflexivity|reflexivity].
Defined.

(** ** The Deployment branch *)

Lemma getitem_inr obj key v :
  getitem obj key = inr v ->
  exists items, obj = YMap items /\ map_lookup items key = Some v.
Proof.
  destruct obj as [[]| | | | |items]; simpl; try discriminate.
  destruct (map_lookup items key) eqn:E; [|discriminate].
  intros [= <-]. eauto.
Qed.

Lemma py_get_inr obj key default v :
  py_get obj key default = inr v ->
  exists items, obj = YMap items
    /\ v = match map_lookup items key with Some x => x | None => default end.
Proof.
  destruct obj as [[]| | | | |items]; simpl; try discriminate.
  destruct (map_lookup items key) eqn:E; intros [= <-];
    exists items; rewrite E; auto.
Qed.

(** The branch adds the suggestion, and only it, to [suggestions] exactly
    under [wants_security_context]. *)
Lemma deployment_checks_suggestions items r :
  exists res r',
    deployment_checks (YMap items) r = (res, r')
    /\ ((wants_security_context items
         /\ suggestions r' = (suggestions r ++ [MSG_SECURITY])%list)
        \/ (~ wants_security_context items /\ suggestions r' = suggestions r)).
Proof.
  unfold deployment_checks, bind, eval, tell, when, ret. simpl.
  destruct (map_lookup items "spec") as [spec|] eqn:Hspec; simpl.
  2:{ do 2 eexists. split; [reflexivity|]. right. split; [|reflexivity].
      intros (s & t & Hs & _). congruence. }
  assert (Hno : forall P : Prop,
             (forall s t, spec = YMap s -> map_lookup s "template" = Some (YMap t) ->
                          py_in "securityContext" (pod_spec_or_empty t) = inr false -> P) ->
             wants_security_context items -> P).
  { intros P HP (s & t & Hs & Ht & Hsc). rewrite Hspec in Hs.
    injection Hs as ->. eauto. }
  destruct (py_in "replicas" spec) as [e|hr] eqn:Hrep; simpl.
  { do 2 eexists. split; [reflexivity|]. right. split; [|reflexivity].
    intros Hw; revert Hw; apply (Hno False). intros s t -> _ _. simpl in Hrep. discriminate. }
  destruct hr; cbn [negb]; cbv iota beta;
    [set (r1 := r) | set (r1 := add_warning r MSG_REPLICAS)];
    change (suggestions r) with (suggestions r1); clearbody r1; clear Hrep.
  all: cbv iota beta.
  all: destruct (py_in "template" spec) as [e|[|]] eqn:Htpl.
  all: cbv iota beta.
  1,4: do 2 eexists; (split; [reflexivity|]); right; (split; [|reflexivity]);
    intros Hw; revert Hw; apply (Hno False); intros s t -> _ _;
    simpl in Htpl; discriminate.
  2,4: do 2 eexists; (split; [reflexivity|]); right; (split; [|reflexivity]);
    intros Hw; revert Hw; apply (Hno False); intros s t -> Ht _;
    simpl in Htpl; rewrite Ht in Htpl; discriminate.
  all: destruct (getitem spec "template") as [e|template] eqn:Hget.
  1,3: do 2 eexists; (split; [reflexivity|]); right; (split; [|reflexivity]);
    intros Hw; revert Hw; apply (Hno False); intros s t -> Ht _;
    simpl in Hget; rewrite Ht in Hget; discriminate.
  all: apply getitem_inr in Hget as (s & -> & Hs).
  all: destruct (py_get template "spec" (YMap [])) as [e|tspec] eqn:Hpg.
  1,3: do 2 eexists; (split; [reflexivity|]); right; (split; [|reflexivity]);
    intros Hw; revert Hw; apply (Hno False); intros s' t [= <-] Ht _;
    rewrite Hs in Ht; injection Ht as ->; simpl in Hpg;
    destruct (map_lookup t "spec"); discriminate.
  all: apply py_get_inr in Hpg as (t & -> & ->).
  all: fold (pod_spec_or_empty t).
  all: destruct (py_in "securityContext" (pod_spec_or_empty t)) as [e|[|]] eqn:Hsc.
  all: cbv iota beta; cbn [negb]; cbv iota beta.
  all: do 2 eexists; (split; [reflexivity|]).
  3,6: left; (split; [|reflexivity]); exists s, t; auto.
  all: right; (split; [|reflexivity]);
    intros Hw; revert Hw; apply (Hno False); intros s' t' [= <-] Ht;
    rewrite Hs in Ht; injection Ht as <-; congruence.
Qed.

(** On a mapping of kind Deployment whose metadata check does not raise,
    the inspection comes to the Deployment branch with no suggestion
    made. *)
Lemma inspect_reaches_deployment items :
  map_lookup items "kind" = Some (YStr "Deployment") ->
  metadata_checkable items ->
  exists r0,
    inspect (YMap items) new_result = deployment_checks (YMap items) r0
    /\ suggestions r0 = [].
Proof.
  intros Hkind Hmeta. unfold metadata_checkable in Hmeta.
  unfold inspect, bind, eval, tell, when, ret. simpl py_in. simpl py_get.
  rewrite Hkind. cbn [eq_str]. simpl (String.eqb _ _). cbv iota.
  destruct (map_lookup items "metadata") as [md|] eqn:Hmd.
  - destruct Hmeta as [b Hb]. simpl getitem. rewrite Hmd, Hb.
    destruct (map_lookup items "apiVersion"), b; cbn [negb]; cbv iota;
      eexists; split; reflexivity.
  - destruct (map_lookup items "apiVersion"); cbn [negb]; cbv iota;
      eexists; split; reflexivity.
Qed.

(** C2, as the code has it.  For a mapping of kind Deployment whose
    metadata check does not raise, the validator returns a result, and
    the securityContext suggestion is in it exactly when [spec] is a
    mapping whose [template] is a mapping and the pod spec,
    [spec.template.spec] or the empty mapping when the template has no
    [spec], does not contain [securityContext]. *)
Theorem security_suggestion_rule
    (safe_load : string -> loaded) (content : string) (items : list (yaml * yaml)) :
  safe_load content = Document (YMap items) ->
  map_lookup items "kind" = Some (YStr "Deployment") ->
  metadata_checkable items ->
  exists r,
    validate_kubernetes_manifest safe_load content = Returned r
    /\ (In MSG_SECURITY (suggestions r) <-> wants_security_context items).
Proof.
  intros Hload Hkind Hmeta.
  destruct (inspect_reaches_deployment items Hkind Hmeta) as (r0 & Hins & Hr0).
  destruct (deployment_checks_suggestions items r0) as (res & r' & Hrun & Hcases).
  rewrite Hrun in Hins. rewrite Hr0 in Hcases. simpl in Hcases.
  destruct res as [e|u].
  - exists (add_error r' ("Validation error: " ++ exn_str e)). split.
    + apply (kubernetes_validator_fault safe_load content _ e r' Hload Hins).
    + simpl. destruct Hcases as [[Hw ->]|[Hw ->]]; simpl; tauto.
  - exists r'. split.
    + apply (kubernetes_validator_clean safe_load content _ u r' Hload Hins).
    + destruct Hcases as [[Hw ->]|[Hw ->]]; simpl; tauto.
Qed.

Lemma security_suggestion_rule_witness :
  sample_load bare_deployment_text = Document bare_deployment
  /\ exists r,
       validate_kubernetes_manifest sample_load bare_deployment_text = Returned r
       /\ (In MSG_SECURITY (suggestions r)
           <-> wants_security_context
                 [ (YStr "apiVersion", YStr "apps/v1");
                   (YStr "kind", YStr "Deployment");
                   (YStr "metadata", YMap [ (YStr "name", YStr "web") ]);
                   (YStr "spec", YMap [ (YStr "replicas", YScalar (SInt 1));
                                        (YStr "template", YMap []) ]) ]).
Proof.
  split; [reflexivity|].
  apply (security_suggestion_rule sample_load bare_deployment_text).
  - reflexivity.
  - reflexivity.
  - unfold metadata_checkable. simpl. exists true. reflexivity.
Defined.

(** C2 as stated fails: the template of [bare_deployment] has no [spec],
    yet the validator makes the suggestion. *)
Lemma security_suggestion_without_pod_spec :
  sample_load bare_deployment_text = Document bare_deployment
  /\ at_path bare_deployment ["spec"; "template"] = Some (YMap [])
  /\ at_path bare_deployment ["spec"; "template"; "spec"] = None
  /\ validate_kubernetes_manifest sample_load bare_deployment_text
     = Returned {| valid := true; errors := []; warnings := [];
                   suggestions := [MSG_SECURITY] |}.
Proof. repeat split. Qed.

(* ================================================================== *)
(** * Scanning: [startswith], [in] and [replace] *)
(* ================================================================== *)

Lemma string_app_assoc (a b c : string) : (a ++ b) ++ c = a ++ (b ++ c).
Proof. induction a as [|x a IH]; simpl; [reflexivity|now rewrite IH]. Qed.

Lemma string_app_nil_r (a : string) : a ++ "" = a.
Proof. induction a as [|x a IH]; simpl; [reflexivity|now rewrite IH]. Qed.

Lemma string_length_app (a b : string) :
  String.length (a ++ b) = String.length a + String.length b.
Proof. induction a as [|x a IH]; simpl; [reflexivity|now rewrite IH]. Qed.

Lemma startswith_app s pre : startswith (pre ++ s) pre = true.
Proof.
  induction pre as [|p pre IH]; simpl; [reflexivity|].
  rewrite Ascii.eqb_refl. exact IH.
Qed.

Lemma startswith_split s pre :
  startswith s pre = true -> exists t, s = pre ++ t.
Proof.
  revert s. induction pre as [|p pre IH]; intros s H; simpl in *.
  - now exists s.
  - destruct s as [|c s]; [discriminate|].
    apply andb_true_iff in H as [Hc Hs]. apply Ascii.eqb_eq in Hc. subst c.
    destruct (IH s Hs) as [t ->]. now exists t.
Qed.

(** A text that starts with [pre ++ more] starts with [pre]; a text that
    starts with [pre] still does when it is extended. *)
Lemma startswith_shorter s pre more :
  startswith s (pre ++ more) = true -> startswith s pre = true.
Proof.
  intros H. apply startswith_split in H as [t ->].
  rewrite string_app_assoc. apply startswith_app.
Qed.

Lemma startswith_extend s t pre :
  startswith s pre = true -> startswith (s ++ t) pre = true.
Proof.
  intros H. apply startswith_split in H as [u ->].
  rewrite string_app_assoc. apply startswith_app.
Qed.

Lemma absent_cons sub c t :
  absent sub (String c t) -> startswith (String c t) sub = false /\ absent sub t.
Proof.
  unfold absent. simpl str_in. intros H. apply orb_false_iff in H. exact H.
Qed.

Lemma absent_cons_intro sub c t :
  startswith (String c t) sub = false -> absent sub t -> absent sub (String c t).
Proof.
  unfold absent. intros Hs Ht. cbn [str_in]. now rewrite Hs, Ht.
Qed.

Lemma absent_suffix sub a b : absent sub (a ++ b) -> absent sub b.
Proof.
  induction a as [|c a IH]; simpl; [auto|].
  intros H. apply absent_cons in H as [_ H]. auto.
Qed.

Lemma absent_prefix sub a b : absent sub (a ++ b) -> absent sub a.
Proof.
  unfold absent. induction a as [|c a IH]; simpl append.
  - intros H. destruct sub as [|p sub]; [|destruct b; reflexivity].
    destruct b; discriminate.
  - intros H. apply absent_cons in H as [Hs Ht]. simpl str_in.
    rewrite (IH Ht), orb_false_r.
    destruct (startswith (String c a) sub) eqn:E; [|reflexivity].
    apply (startswith_extend _ b) in E. simpl append in E. congruence.
Qed.

Lemma absent_longer sub more s : absent sub s -> absent (sub ++ more) s.
Proof.
  unfold absent. induction s as [|c s IH]; simpl str_in.
  - intros H. rewrite orb_false_r in *.
    destruct (startswith "" (sub ++ more)) eqn:E; [|reflexivity].
    apply startswith_shorter in E. congruence.
  - intros H. apply orb_false_iff in H as [Hs Ht]. rewrite (IH Ht), orb_false_r.
    destruct (startswith (String c s) (sub ++ more)) eqn:E; [|reflexivity].
    apply startswith_shorter in E. congruence.
Qed.

Section Replace.

Variables old new : string.

Lemma replace_from_skip x t :
  replace_from old new (String.length x) (x ++ t) = replace_from old new 0 t.
Proof. induction x as [|c x IH]; simpl; auto. Qed.

(** At an occurrence the replacement is written and the scan goes on
    behind it. *)
Lemma replace_here t :
  old <> EmptyString ->
  replace (old ++ t) old new = new ++ replace t old new.
Proof.
  intros Hne. unfold replace. destruct old as [|p old'] eqn:E; [congruence|].
  rewrite <- E. replace (old ++ t) with (String p (old' ++ t)) by (now subst).
  cbn [replace_from]. replace (String p (old' ++ t)) with (old ++ t) by (now subst).
  rewrite startswith_app. f_equal.
  replace (String.length old - 1) with (String.length old')
    by (subst; simpl; lia).
  apply replace_from_skip.
Qed.

Lemma replace_next c t :
  startswith (String c t) old = false ->
  replace (String c t) old new = String c (replace t old new).
Proof. intros H. unfold replace. cbn [replace_from]. now rewrite H. Qed.

Lemma replace_absent s : absent old s -> replace s old new = s.
Proof.
  induction s as [|c s IH]; [reflexivity|].
  intros H. apply absent_cons in H as [Hs Ht].
  rewrite (replace_next _ _ Hs), (IH Ht). reflexivity.
Qed.

End Replace.

(* ================================================================== *)
(** * Trimming *)
(* ================================================================== *)

Lemma lstrip_clean_head s : clean_head (lstrip s).
Proof.
  induction s as [|c t IH]; simpl; [exact I|].
  destruct (is_space c) eqn:E; [exact IH|exact E].
Qed.

Lemma lstrip_fixed s : clean_head s -> lstrip s = s.
Proof. destruct s as [|c t]; simpl; [reflexivity|]. now intros ->. Qed.

Lemma rstrip_clean_head s : clean_head s -> clean_head (rstrip s).
Proof.
  destruct s as [|c t]; simpl; [auto|]. intros H.
  destruct (rstrip t); [rewrite H|]; exact H.
Qed.

Lemma rstrip_idempotent s : rstrip (rstrip s) = rstrip s.
Proof.
  induction s as [|c t IH]; simpl; [reflexivity|].
  destruct (rstrip t) as [|d r] eqn:E.
  - destruct (is_space c) eqn:Hc; simpl; [reflexivity|]. now rewrite Hc.
  - cbn [rstrip] in *. now rewrite IH.
Qed.

Lemma strip_idempotent s : strip (strip s) = strip s.
Proof.
  unfold strip.
  rewrite (lstrip_fixed (rstrip (lstrip s)))
    by apply rstrip_clean_head, lstrip_clean_head.
  apply rstrip_idempotent.
Qed.

(** [lstrip] keeps a suffix, [rstrip] a prefix. *)
Lemma lstrip_suffix s : exists w, s = w ++ lstrip s /\ blank w = true.
Proof.
  induction s as [|c t (w & Hw & Hb)]; simpl.
  - now exists EmptyString.
  - destruct (is_space c) eqn:E.
    + exists (String c w). simpl. rewrite E, Hb. split; [congruence|reflexivity].
    + now exists EmptyString.
Qed.

Lemma rstrip_prefix s : exists w, s = rstrip s ++ w /\ blank w = true.
Proof.
  induction s as [|c t (w & Hw & Hb)]; simpl.
  - now exists EmptyString.
  - destruct (rstrip t) as [|d r] eqn:E.
    + simpl in Hw. subst w. destruct (is_space c) eqn:Hc.
      * exists (String c t). simpl. now rewrite Hc, Hb.
      * exists t. now split.
    + exists w. split; [|exact Hb]. simpl. simpl in Hw. congruence.
Qed.

Lemma absent_strip sub s : absent sub s -> absent sub (strip s).
Proof.
  intros H. unfold strip.
  destruct (lstrip_suffix s) as (w & Hw & _).
  rewrite Hw in H. apply absent_suffix in H.
  destruct (rstrip_prefix (lstrip s)) as (w' & Hw' & _).
  rewrite Hw' in H. apply absent_prefix in H. exact H.
Qed.

(* ================================================================== *)
(** * Code fences *)
(* ================================================================== *)

Lemma startswith_fence s : startswith s FENCE = true <-> 3 <= ticks s.
Proof.
  unfold FENCE.
  destruct s as [|a [|b [|c s]]]; simpl; fold tick;
    repeat match goal with
           | |- context [Ascii.eqb ?x tick] => destruct (Ascii.eqb x tick)
           end; simpl; split; intros H; try discriminate; try lia; auto.
Qed.

(** Behind the removal of the fences a text starts with at most two
    backticks, as many as before when there were at most two, and has no
    fence left. *)
Lemma replace_fence_spec n : forall s,
  String.length s <= n ->
  ticks (replace s FENCE "") <= 2
  /\ (ticks s <= 2 -> ticks (replace s FENCE "") = ticks s)
  /\ absent FENCE (replace s FENCE "").
Proof.
  induction n as [|n IH]; intros s Hlen.
  - destruct s; [|simpl in Hlen; lia]. simpl. repeat split; auto.
  - destruct (startswith s FENCE) eqn:Hs.
    + apply startswith_split in Hs as [t ->].
      rewrite replace_here by discriminate.
      rewrite string_length_app in Hlen. simpl in Hlen.
      destruct (IH t ltac:(lia)) as (H1 & H2 & H3).
      change (ticks (FENCE ++ t)) with (3 + ticks t).
      change ("" ++ replace t FENCE "") with (replace t FENCE "").
      repeat split; auto. intros; lia.
    + destruct s as [|c t]; [simpl; repeat split; auto|].
      rewrite (replace_next _ _ _ _ Hs). simpl in Hlen.
      destruct (IH t ltac:(lia)) as (H1 & H2 & H3).
      assert (Hnot : ~ 3 <= ticks (String c t)).
      { intros H. apply startswith_fence in H. congruence. }
      simpl in Hnot. simpl ticks.
      destruct (Ascii.eqb c tick) eqn:Hc.
      * assert (Ht : ticks t <= 1) by lia.
        rewrite (H2 ltac:(lia)).
        split; [lia|split; [auto|]].
        apply absent_cons_intro; [|exact H3].
        destruct (startswith (String c (replace t FENCE "")) FENCE) eqn:E;
          [|reflexivity].
        apply startswith_fence in E. simpl in E. rewrite Hc in E.
        rewrite (H2 ltac:(lia)) in E. lia.
      * split; [lia|split; [auto|]].
        apply absent_cons_intro; [|exact H3].
        destruct (startswith (String c (replace t FENCE "")) FENCE) eqn:E;
          [|reflexivity].
        apply startswith_fence in E. simpl in E. rewrite Hc in E. lia.
Qed.

Lemma replace_fence_absent s : absent FENCE (replace s FENCE "").
Proof. apply (replace_fence_spec (String.length s) s). lia. Qed.

(** A trimmed text without fence is left alone by the clean-up steps. *)
Lemma k8s_clean_up_fixed s :
  absent FENCE s -> strip s = s -> K8sGenerator.clean_up s = s.
Proof.
  intros Ha Hs. unfold K8sGenerator.clean_up.
  rewrite (replace_absent _ _ _ (absent_longer _ "yaml" _ Ha)).
  rewrite (replace_absent _ _ _ Ha). exact Hs.
Qed.

Lemma terraform_clean_up_fixed s :
  absent FENCE s -> strip s = s -> TerraformGenerator.clean_up s = s.
Proof.
  intros Ha Hs. unfold TerraformGenerator.clean_up.
  rewrite (replace_absent _ _ _ (absent_longer _ "hcl" _ Ha)).
  rewrite (replace_absent _ _ _ (absent_longer _ "terraform" _ Ha)).
  rewrite (replace_absent _ _ _ Ha). exact Hs.
Qed.

(** C6.  Removing the fences and trimming, done twice, gives what doing
    it once gives; for the step of the Kubernetes generator and for the
    step of the Terraform generator. *)
Theorem clean_up_idempotent (content : string) :
  K8sGenerator.clean_up (K8sGenerator.clean_up content)
  = K8sGenerator.clean_up content
  /\ TerraformGenerator.clean_up (TerraformGenerator.clean_up content)
     = TerraformGenerator.clean_up content.
Proof.
  split.
  - apply k8s_clean_up_fixed.
    + apply absent_strip, replace_fence_absent.
    + apply strip_idempotent.
  - apply terraform_clean_up_fixed.
    + apply absent_strip, replace_fence_absent.
    + apply strip_idempotent.
Qed.

(** The removal of the open fence alone can leave an open fence; it is
    the removal of the bare fence behind it that makes the step
    idempotent. *)
Example open_fence_removal_not_idempotent :
  replace "``````yamlyaml" (FENCE ++ "yaml") "" = "```yaml".
Proof. reflexivity. Qed.

(* ================================================================== *)
(** * Dictionaries *)
(* ================================================================== *)

Lemma dict_get_set_same d k v : dict_get (dict_set d k v) k = Some v.
Proof.
  induction d as [|[k' v'] r IH]; simpl.
  - now rewrite String.eqb_refl.
  - destruct (String.eqb k' k) eqn:E; simpl; rewrite E; auto.
Qed.

Lemma dict_get_set_other d k v k' :
  k <> k' -> dict_get (dict_set d k v) k' = dict_get d k'.
Proof.
  intros Hne. induction d as [|[k0 v0] r IH]; simpl.
  - apply String.eqb_neq in Hne. now rewrite Hne.
  - destruct (String.eqb_spec k0 k) as [->|Hk0]; simpl.
    + apply String.eqb_neq in Hne. now rewrite Hne.
    + now rewrite IH.
Qed.

Lemma keys_set d k v :
  keys (dict_set d k v) = if existsb (String.eqb k) (keys d)
                          then keys d else (keys d ++ [k])%list.
Proof.
  unfold keys. induction d as [|[k' v'] r IH]; simpl; [reflexivity|].
  rewrite (String.eqb_sym k k').
  destruct (String.eqb k' k); simpl; [reflexivity|].
  rewrite IH. now destruct (existsb (String.eqb k) (map fst r)).
Qed.

Lemma keys_set_nodup d k v : NoDup (keys d) -> NoDup (keys (dict_set d k v)).
Proof.
  intros H. rewrite keys_set.
  destruct (existsb (String.eqb k) (keys d)) eqn:E; [exact H|].
  apply NoDup_app; [exact H|repeat constructor; intros []|].
  intros x Hx [<-|[]].
  assert (existsb (String.eqb k) (keys d) = true); [|congruence].
  apply existsb_exists. exists k. split; [exact Hx|apply String.eqb_refl].
Qed.

Lemma dict_set_not_empty d k v : dict_is_empty (dict_set d k v) = false.
Proof. destruct d as [|[k' v'] r]; simpl; [reflexivity|]. now destruct (String.eqb k' k). Qed.

Section Stores.

Lemma fold_store_get entries : forall d k,
  dict_get (fold_left store entries d) k
  = match last_value entries k with
    | Some v => Some v
    | None => dict_get d k
    end.
Proof.
  induction entries as [|[k0 v0] r IH]; intros d k; simpl; [reflexivity|].
  rewrite IH. unfold store. simpl.
  destruct (last_value r k); [reflexivity|].
  destruct (String.eqb_spec k0 k) as [->|Hne].
  - apply dict_get_set_same.
  - now apply dict_get_set_other.
Qed.

Lemma fold_store_nodup entries : forall d,
  NoDup (keys d) -> NoDup (keys (fold_left store entries d)).
Proof.
  induction entries as [|e r IH]; intros d H; simpl; [exact H|].
  apply IH, keys_set_nodup, H.
Qed.

Lemma fold_store_not_empty entries : forall d,
  dict_is_empty d = false -> dict_is_empty (fold_left store entries d) = false.
Proof.
  induction entries as [|e r IH]; intros d H; simpl; [exact H|].
  apply IH, dict_set_not_empty.
Qed.

Lemma last_value_some entries : forall k x,
  last_value entries k = Some x -> exists i w, nth_error entries i = Some (k, w).
Proof.
  induction entries as [|[k0 v0] r IH]; intros k x H; simpl in H; [discriminate|].
  destruct (last_value r k) as [y|] eqn:E.
  - destruct (IH k y E) as (i & w & Hi). now exists (S i), w.
  - destruct (String.eqb_spec k0 k) as [->|]; [|discriminate].
    now exists 0, v0.
Qed.

(** The entry at [j] is the last one for its key when no later entry
    has the key. *)
Lemma last_value_at entries : forall j k v,
  nth_error entries j = Some (k, v) ->
  (forall i w, j < i -> nth_error entries i <> Some (k, w)) ->
  last_value entries k = Some v.
Proof.
  induction entries as [|[k0 v0] r IH]; intros j k v Hj Hlater.
  - destruct j; discriminate.
  - simpl. destruct j as [|j]; simpl in Hj.
    + injection Hj as -> ->.
      destruct (last_value r k) as [x|] eqn:E.
      * destruct (last_value_some r k x E) as (i & w & Hi).
        exfalso. apply (Hlater (S i) w); [lia|exact Hi].
      * now rewrite String.eqb_refl.
    + rewrite (IH j k v Hj); [reflexivity|].
      intros i w Hi H. apply (Hlater (S i) w); [lia|exact H].
Qed.

End Stores.

(* ================================================================== *)
(** * [_parse_output] as a sequence of assignments *)
(* ================================================================== *)

(** Induction two elements at a time, as the marker loop walks. *)
Lemma list_pair_ind {A} (P : list A -> Prop) :
  P [] -> (forall a, P [a]) -> (forall a b l, P l -> P (a :: b :: l)) ->
  forall l, P l.
Proof.
  intros H0 H1 H2 l.
  enough (P l /\ forall a, P (a :: l)) by tauto.
  induction l as [|b l [IHl IHbl]]; split; auto.
Qed.

Lemma marker_loop_fold splits : forall d,
  K8sGenerator.marker_loop splits d = fold_left store (marker_pairs splits) d.
Proof.
  induction splits as [|f|f c rest IH] using list_pair_ind; intros d; simpl; auto.
Qed.

Lemma fallback_loop_fold docs : forall i d,
  K8sGenerator.fallback_loop docs i d = fold_left store (named_from docs i) d.
Proof.
  induction docs as [|doc rest IH]; intros i d; simpl; [reflexivity|].
  destruct (K8sGenerator.name_document i doc) as [filename doc'] eqn:E.
  rewrite IH. reflexivity.
Qed.

Lemma k8s_parse_output_fold output :
  K8sGenerator._parse_output output = fold_left store (k8s_entries output) [].
Proof.
  unfold K8sGenerator._parse_output, k8s_entries.
  rewrite marker_loop_fold. fold (marker_entries output).
  destruct (marker_entries output) as [|e r] eqn:E.
  - simpl. apply fallback_loop_fold.
  - cbn [fold_left]. rewrite fold_store_not_empty; [reflexivity|].
    apply dict_set_not_empty.
Qed.

(** C3.  When two markers, or without markers two fragments, resolve to
    one file name, the result maps the name to the content of the later
    one; the parser is a total function, nothing is raised, and the name
    is a key once. *)
Theorem last_write_wins (output : string) (i j : nat) (f c1 c2 : string) :
  i < j ->
  nth_error (k8s_entries output) i = Some (f, c1) ->
  nth_error (k8s_entries output) j = Some (f, c2) ->
  (forall k c, j < k -> nth_error (k8s_entries output) k <> Some (f, c)) ->
  dict_get (K8sGenerator._parse_output output) f = Some c2
  /\ NoDup (keys (K8sGenerator._parse_output output)).
Proof.
  intros _ _ Hj Hlater. rewrite k8s_parse_output_fold. split.
  - rewrite fold_store_get, (last_value_at _ j f c2 Hj Hlater). reflexivity.
  - apply fold_store_nodup. constructor.
Qed.

Lemma last_write_wins_witness :
  k8s_entries twice_the_same_file
  = [("app.yaml", "replicas: 1"); ("app.yaml", "replicas: 2")]
  /\ dict_get (K8sGenerator._parse_output twice_the_same_file) "app.yaml"
     = Some "replicas: 2"
  /\ NoDup (keys (K8sGenerator._parse_output twice_the_same_file)).
Proof.
  split; [reflexivity|].
  apply (last_write_wins twice_the_same_file 0 1 "app.yaml"
           "replicas: 1" "replicas: 2").
  - lia.
  - reflexivity.
  - reflexivity.
  - intros [|[|[|k]]] c Hk; try lia; discriminate.
Defined.

(** The same for two fragments named after their kind. *)
Example last_fragment_wins :
  K8sGenerator._parse_output
    ("kind: Pod" ++ NL ++ "a: 1" ++ NL ++ "---" ++ NL ++ "kind: Pod" ++ NL ++ "a: 2")
  = [("pod.yaml", "kind: Pod" ++ NL ++ "a: 2")].
Proof. reflexivity. Qed.

(* ================================================================== *)
(** * The pattern engine *)
(* ================================================================== *)

Section Loops.

Variable cls : ascii -> bool.
Variable k : string -> option found.

(** Where [k] cannot start with a character of the class, the star
    passes a run of the class whole. *)
Lemma star_loop_run w t :
  all_chars cls w = true ->
  (forall a u, cls a = true -> k (String a u) = None) ->
  star_loop cls k (w ++ t) = star_loop cls k t.
Proof.
  intros Hw Hk. induction w as [|a w IH]; [reflexivity|].
  simpl in Hw. apply andb_true_iff in Hw as [Ha Hw].
  simpl. rewrite Ha, (IH Hw), (Hk a _ Ha).
  now destruct (star_loop cls k t).
Qed.

Lemma star_loop_stop t :
  match t with EmptyString => True | String a _ => cls a = false end ->
  star_loop cls k t = k t.
Proof. destruct t as [|a u]; simpl; [reflexivity|]. now intros ->. Qed.

(** The plus takes a whole run of the class when [k] matches behind
    it. *)
Lemma plus_loop_run f t r :
  f <> EmptyString ->
  all_chars cls f = true ->
  match t with EmptyString => True | String a _ => cls a = false end ->
  k t = Some r ->
  plus_loop cls k (f ++ t) = Some (f, r).
Proof.
  intros Hne Hf Ht Hk. induction f as [|a f IH]; [congruence|].
  simpl in Hf. apply andb_true_iff in Hf as [Ha Hf].
  simpl. rewrite Ha. destruct f as [|b f].
  - simpl. destruct t as [|c u]; simpl; [now rewrite Hk|].
    now rewrite Ht, Hk.
  - rewrite IH; [reflexivity|discriminate|exact Hf].
Qed.

Lemma plus_loop_shorter s g r :
  plus_loop cls k s = Some (g, r) ->
  exists t, s = g ++ t /\ g <> EmptyString /\ k t = Some r.
Proof.
  revert g r. induction s as [|a s IH]; intros g r H; simpl in H; [discriminate|].
  destruct (cls a); [|discriminate].
  destruct (plus_loop cls k s) as [[g' r']|] eqn:E.
  - injection H as <- <-. destruct (IH g' r' eq_refl) as (t & -> & _ & Hk).
    exists t. repeat split; [discriminate|exact Hk].
  - destruct (k s) as [r'|] eqn:Ek; [|discriminate].
    injection H as <- <-. exists s. repeat split; [discriminate|exact Ek].
Qed.

Lemma star_loop_shorter s r :
  star_loop cls k s = Some r -> exists w t, s = w ++ t /\ k t = Some r.
Proof.
  revert r. induction s as [|a s IH]; intros r H; simpl in H.
  - now exists EmptyString, EmptyString.
  - destruct (cls a).
    + destruct (star_loop cls k s) as [r'|] eqn:E.
      * injection H as <-. destruct (IH r' eq_refl) as (w & t & -> & Hk).
        now exists (String a w), t.
      * now exists EmptyString, (String a s).
    + now exists EmptyString, (String a s).
Qed.

End Loops.

(** A match takes a part of the text off its front and gives as many
    groups as the pattern has. *)
Lemma re_match_shape p : forall s gs rest,
  re_match p s = Some (gs, rest) ->
  (exists x, s = x ++ rest) /\ List.length gs = group_count p.
Proof.
  induction p as [|[c|cls|cls] p IH]; intros s gs rest H; simpl in H.
  - injection H as <- <-. split; [now exists EmptyString|reflexivity].
  - destruct s as [|a s]; [discriminate|].
    destruct (Ascii.eqb a c); [|discriminate].
    destruct (IH s gs rest H) as [[x ->] Hn]. split; [now exists (String a x)|exact Hn].
  - apply star_loop_shorter in H as (w & t & -> & Hk).
    destruct (IH t gs rest Hk) as [[x ->] Hn]. split; [|exact Hn].
    exists (w ++ x). now rewrite string_app_assoc.
  - destruct (plus_loop cls (re_match p) s) as [[g [gs' rest']]|] eqn:E; [|discriminate].
    injection H as <- <-.
    apply plus_loop_shorter in E as (t & -> & _ & Hk).
    destruct (IH t gs' rest' Hk) as [[x ->] Hn]. split; [|simpl; now rewrite Hn].
    exists (g ++ x). now rewrite string_app_assoc.
Qed.

Lemma re_match_lit x p t : re_match (lit x ++ p)%list (x ++ t) = re_match p t.
Proof.
  induction x as [|c x IH]; [reflexivity|].
  simpl. now rewrite Ascii.eqb_refl.
Qed.

Lemma re_match_lit_fails x p s :
  startswith s x = false -> re_match (lit x ++ p)%list s = None.
Proof.
  revert s. induction x as [|c x IH]; intros s H; simpl in *; [discriminate|].
  destruct s as [|a s]; [reflexivity|].
  destruct (Ascii.eqb a c); [|reflexivity]. simpl in H. auto.
Qed.

(* ================================================================== *)
(** * [re.split] *)
(* ================================================================== *)

Section Split.

Variable p : regex.

Lemma re_split_from_skip x t :
  re_split_from p (String.length x) (x ++ t) = re_split_from p 0 t.
Proof. induction x as [|c x IH]; simpl; auto. Qed.

(** At a match the piece before it ends, the groups follow, and the
    scan goes on behind the match. *)
Lemma re_split_here x rest gs :
  x <> EmptyString ->
  re_match p (x ++ rest) = Some (gs, rest) ->
  re_split p (x ++ rest) = (EmptyString :: gs ++ re_split p rest)%list.
Proof.
  intros Hne Hm. unfold re_split. destruct x as [|c x]; [congruence|].
  change (String c x ++ rest) with (String c (x ++ rest)) in *.
  cbn [re_split_from]. rewrite Hm. do 2 f_equal.
  replace (String.length (String c (x ++ rest)) - String.length rest - 1)
    with (String.length x)
    by (change (String.length (String c (x ++ rest)))
          with (S (String.length (x ++ rest)));
        rewrite string_length_app; lia).
  apply re_split_from_skip.
Qed.

Lemma re_split_next c t :
  re_match p (String c t) = None ->
  re_split p (String c t) = cons_head c (re_split p t).
Proof. intros H. unfold re_split. cbn [re_split_from]. now rewrite H. Qed.

Lemma re_split_from_not_nil skip s : re_split_from p skip s <> [].
Proof.
  revert skip. induction s as [|c t IH]; intros skip; simpl; [discriminate|].
  destruct skip; [|apply IH].
  destruct (re_match p (String c t)) as [[gs rest]|]; [discriminate|].
  specialize (IH 0). destruct (re_split_from p 0 t); [congruence|discriminate].
Qed.

End Split.

(** With one group in the pattern the pieces of a split are odd in
    number: a piece of text before the first match, and behind every match
    its group and a piece of text. *)
Lemma re_split_odd p s :
  group_count p = 1 ->
  forall skip, exists n, List.length (re_split_from p skip s) = 2 * n + 1.
Proof.
  intros Hp. induction s as [|c t IH]; intros skip; simpl.
  - now exists 0.
  - destruct skip as [|skip]; [|apply IH].
    destruct (re_match p (String c t)) as [[gs rest]|] eqn:E.
    + apply re_match_shape in E as [_ Hg]. rewrite Hp in Hg.
      destruct (IH (String.length (String c t) - String.length rest - 1)) as [n Hn].
      exists (S n). simpl. rewrite length_app, Hg.
      simpl in Hn. rewrite Hn. lia.
    + destruct (IH 0) as [n Hn]. exists n.
      destruct (re_split_from p 0 t); simpl in *; [lia|exact Hn].
Qed.

(** The test [i + 1 < len(splits)] of the marker loop never fails: the
    loop meets no file name without a content behind it. *)
Lemma marker_pairs_complete output :
  2 * List.length (marker_entries output) + 1
  = List.length (re_split file_pattern output).
Proof.
  unfold marker_entries, re_split.
  destruct (re_split_odd file_pattern output eq_refl 0) as [n Hn].
  rewrite Hn. destruct (re_split_from file_pattern 0 output) as [|h l]; [simpl in Hn; lia|].
  simpl in Hn. simpl tl. assert (Hl : List.length l = 2 * n) by lia. clear Hn.
  enough (List.length (marker_pairs l) = n) by lia.
  revert n Hl. induction l as [|a|a b l IH] using list_pair_ind; intros n Hl; simpl in *.
  - lia.
  - lia.
  - destruct n as [|n]; [lia|]. rewrite (IH n); lia.
Qed.

(* ================================================================== *)
(** * The marker pattern on well-formed markers *)
(* ================================================================== *)

Lemma no_match_without_dashes s :
  startswith s "---" = false -> re_match file_pattern s = None.
Proof. intros H. unfold file_pattern. now apply re_match_lit_fails. Qed.

Lemma no_match_four_dashes z : re_match file_pattern ("----" ++ z) = None.
Proof. reflexivity. Qed.

(** In front of a marker, in a text without separator, no match starts:
    dashes that run into the marker are followed by a dash. *)
Lemma no_match_before_marker u rest :
  u <> EmptyString -> absent "---" u ->
  re_match file_pattern (u ++ "---" ++ rest) = None.
Proof.
  intros Hne Hu. destruct u as [|a u]; [congruence|].
  apply absent_cons in Hu as [Hs _].
  destruct (Ascii.eqb_spec a "-") as [->|Ha].
  2:{ apply no_match_without_dashes. simpl.
      apply Ascii.eqb_neq in Ha. now rewrite Ha. }
  destruct u as [|b u]; [apply (no_match_four_dashes rest)|].
  destruct (Ascii.eqb_spec b "-") as [->|Hb].
  2:{ apply no_match_without_dashes. simpl.
      apply Ascii.eqb_neq in Hb. now rewrite Hb. }
  destruct u as [|c u]; [apply (no_match_four_dashes (String "-" rest))|].
  destruct (Ascii.eqb_spec c "-") as [->|Hc].
  - simpl in Hs. discriminate.
  - apply no_match_without_dashes. simpl.
    apply Ascii.eqb_neq in Hc. now rewrite Hc.
Qed.

Lemma no_match_plain u : absent "---" u -> re_match file_pattern u = None.
Proof.
  intros Hu. apply no_match_without_dashes.
  destruct u as [|a u]; [reflexivity|]. now apply absent_cons in Hu.
Qed.

Lemma space_not_newline a : is_space a = false -> Ascii.eqb a nl = false.
Proof.
  intros H. destruct (Ascii.eqb_spec a nl) as [->|]; [discriminate|reflexivity].
Qed.

(** [\s*\n] behind the file name takes the white space in front of the
    content up to its last line feed. *)
Lemma tail_pattern_inside c tail r :
  clean_head tail ->
  re_match tail_pattern (c ++ tail) = Some r ->
  exists w c', c = w ++ c' /\ blank w = true /\ r = ([], c' ++ tail).
Proof.
  intros Htail. revert r. induction c as [|a c IH]; intros r H.
  - exfalso. simpl in H. destruct tail as [|b u]; simpl in H; [discriminate|].
    simpl in Htail. rewrite Htail in H.
    now rewrite (space_not_newline _ Htail) in H.
  - change (re_match tail_pattern (String a c ++ tail))
      with (if is_space a
            then match re_match tail_pattern (c ++ tail) with
                 | Some r => Some r
                 | None => if Ascii.eqb a nl then Some ([], c ++ tail) else None
                 end
            else if Ascii.eqb a nl then Some ([], c ++ tail) else None) in H.
    destruct (is_space a) eqn:Ha.
    + destruct (re_match tail_pattern (c ++ tail)) as [r'|] eqn:E.
      * injection H as <-. destruct (IH r' eq_refl) as (w & c' & -> & Hw & ->).
        exists (String a w), c'. simpl. now rewrite Ha, Hw.
      * destruct (Ascii.eqb a nl); [|discriminate]. injection H as <-.
        exists (String a ""), c. simpl. now rewrite Ha.
    + now rewrite (space_not_newline _ Ha) in H.
Qed.

Lemma tail_pattern_newline c tail :
  clean_head tail ->
  exists w c', c = w ++ c' /\ blank w = true
    /\ re_match tail_pattern (String nl (c ++ tail)) = Some ([], c' ++ tail).
Proof.
  intros Htail.
  change (re_match tail_pattern (String nl (c ++ tail)))
    with (match re_match tail_pattern (c ++ tail) with
          | Some r => Some r
          | None => Some ([], c ++ tail)
          end).
  destruct (re_match tail_pattern (c ++ tail)) as [r|] eqn:E.
  - destruct (tail_pattern_inside c tail r Htail E) as (w & c' & Hc & Hw & ->).
    now exists w, c'.
  - now exists EmptyString, c.
Qed.

Lemma name_pattern_token f t r :
  token f ->
  re_match tail_pattern (String nl t) = Some r ->
  re_match name_pattern (String " " (f ++ String nl t)) = Some (f :: fst r, snd r).
Proof.
  intros [Hne Hf] Hr. unfold name_pattern.
  change (re_match (Star is_space :: CapPlus not_space :: tail_pattern))
    with (star_loop is_space (re_match (CapPlus not_space :: tail_pattern))).
  rewrite (star_loop_run is_space _ (String " " "") (f ++ String nl t) eq_refl).
  2:{ intros a u Ha. simpl. unfold not_space at 1. now rewrite Ha. }
  rewrite star_loop_stop.
  2:{ destruct f as [|a f]; [congruence|]. simpl in Hf. simpl.
      apply andb_true_iff in Hf as [Ha _]. unfold not_space in Ha.
      now destruct (is_space a). }
  cbn [re_match].
  rewrite (plus_loop_run not_space _ f (String nl t) r Hne Hf eq_refl Hr).
  now destruct r.
Qed.

Lemma marker_app f rest :
  marker f ++ rest = "---" ++ NL ++ "# FILE: " ++ f ++ String nl rest.
Proof.
  unfold marker. rewrite !string_app_assoc. reflexivity.
Qed.

(** The pattern on a well-formed marker: the group is the file name, and
    the match ends in the white space in front of the content. *)
Lemma marker_match f c tail :
  token f -> clean_head tail ->
  exists w c', c = w ++ c' /\ blank w = true
    /\ re_match file_pattern (marker f ++ c ++ tail) = Some ([f], c' ++ tail).
Proof.
  intros Hf Htail.
  destruct (tail_pattern_newline c tail Htail) as (w & c' & Hc & Hw & Hm).
  exists w, c'. split; [exact Hc|]. split; [exact Hw|].
  pose proof (name_pattern_token f (c ++ tail) _ Hf Hm) as Hn.
  rewrite marker_app.
  change (re_match file_pattern ("---" ++ NL ++ "# FILE: " ++ f ++ String nl (c ++ tail)))
    with (match re_match name_pattern (String " " (f ++ String nl (c ++ tail))) with
          | Some r => Some r
          | None => None
          end).
  now rewrite Hn.
Qed.

(* ================================================================== *)
(** * The splitter on well-formed markers *)
(* ================================================================== *)

Lemma cons_head_prepend c x pieces :
  cons_head c (prepend x pieces) = prepend (String c x) pieces.
Proof. now destruct pieces. Qed.

Lemma render_head files :
  render files = EmptyString \/ exists rest, render files = "---" ++ rest.
Proof.
  destruct files as [|[f c] r]; [now left|right].
  cbn [render]. rewrite marker_app. eexists. reflexivity.
Qed.

Lemma render_clean_head files : clean_head (render files).
Proof. destruct (render_head files) as [->|[rest ->]]; [exact I|reflexivity]. Qed.

(** A stretch without separator in front of the markers goes to the
    first piece. *)
Lemma re_split_stretch x files :
  absent "---" x ->
  re_split file_pattern (x ++ render files)
  = prepend x (re_split file_pattern (render files)).
Proof.
  induction x as [|c x IH]; intros Hx.
  - simpl. destruct (re_split file_pattern (render files)) eqn:E; [|reflexivity].
    now apply re_split_from_not_nil in E.
  - pose proof (absent_cons _ _ _ Hx) as [_ Hx'].
    simpl append. rewrite re_split_next.
    + rewrite (IH Hx'). apply cons_head_prepend.
    + change (String c (x ++ render files)) with (String c x ++ render files).
      destruct (render_head files) as [->|[rest ->]].
      * rewrite string_app_nil_r. now apply no_match_plain.
      * apply no_match_before_marker; [discriminate|exact Hx].
Qed.

Lemma blank_lstrip w s : blank w = true -> lstrip (w ++ s) = lstrip s.
Proof.
  induction w as [|a w IH]; simpl; [reflexivity|].
  intros H. apply andb_true_iff in H as [Ha Hw]. now rewrite Ha, IH.
Qed.

Lemma rstrip_token f : all_chars not_space f = true -> rstrip f = f.
Proof.
  induction f as [|a f IH]; simpl; [reflexivity|].
  intros H. apply andb_true_iff in H as [Ha Hf]. rewrite (IH Hf).
  unfold not_space in Ha. destruct f; [|reflexivity].
  now destruct (is_space a).
Qed.

Lemma strip_token f : token f -> strip f = f.
Proof.
  intros [Hne Hf]. unfold strip. rewrite lstrip_fixed; [now apply rstrip_token|].
  destruct f as [|a f]; [exact I|]. simpl in *.
  apply andb_true_iff in Hf as [Ha _]. unfold not_space in Ha.
  now destruct (is_space a).
Qed.

(** The pieces of a rendered text: the text in front, and for every file
    its name and its content, from which the marker loop makes the
    entries of the files. *)
Lemma re_split_render files : forall x d,
  absent "---" x ->
  Forall plain_file files ->
  exists pieces,
    re_split file_pattern (x ++ render files) = x :: pieces
    /\ K8sGenerator.marker_loop pieces d = fold_left store (map cleaned files) d.
Proof.
  induction files as [|[f c] r IH]; intros x d Hx Hfiles.
  - exists []. split; [|reflexivity].
    rewrite re_split_stretch by exact Hx. simpl.
    now rewrite string_app_nil_r.
  - inversion Hfiles as [|? ? [Hf Hc] Hr]; subst. simpl in Hf, Hc.
    destruct (marker_match f c (render r) Hf (render_clean_head r))
      as (w & c' & -> & Hw & Hm).
    destruct (IH c' (dict_set d f (K8sGenerator.clean_up (strip (w ++ c'))))
                (absent_suffix _ _ _ Hc) Hr) as (pieces & Hsplit & Hloop).
    exists (f :: c' :: pieces). split.
    + rewrite re_split_stretch by exact Hx.
      cbn [render].
      replace (marker f ++ (w ++ c') ++ render r)
        with ((marker f ++ w) ++ c' ++ render r)
        by (now rewrite !string_app_assoc).
      rewrite (re_split_here file_pattern (marker f ++ w) (c' ++ render r) [f]).
      * rewrite Hsplit. simpl. now rewrite string_app_nil_r.
      * unfold marker. discriminate.
      * rewrite <- Hm. f_equal. now rewrite !string_app_assoc.
    + cbn [K8sGenerator.marker_loop map fold_left].
      rewrite (strip_token f Hf). unfold cleaned, store at 2. cbn [fst snd].
      replace (strip c') with (strip (w ++ c'))
        by (unfold strip; now rewrite blank_lstrip).
      exact Hloop.
Qed.

(** Storing entries with distinct keys lists them as they come. *)
Lemma fold_store_distinct entries : forall d,
  NoDup (keys d ++ map fst entries) ->
  fold_left store entries d = (d ++ entries)%list.
Proof.
  induction entries as [|[k v] r IH]; intros d H; simpl.
  - now rewrite app_nil_r.
  - assert (Hk : existsb (String.eqb k) (keys d) = false).
    { destruct (existsb (String.eqb k) (keys d)) eqn:E; [|reflexivity].
      apply existsb_exists in E as (x & Hx & Hxk).
      apply String.eqb_eq in Hxk. subst x.
      apply NoDup_remove_2 in H. exfalso. apply H.
      apply in_or_app. now left. }
    assert (Hset : dict_set d k v = (d ++ [(k, v)])%list).
    { clear -Hk. induction d as [|[k' v'] d IHd]; simpl in *; [reflexivity|].
      apply orb_false_iff in Hk as [Hk Hd]. rewrite String.eqb_sym, Hk.
      now rewrite IHd. }
    unfold store at 2. simpl. rewrite Hset, IH.
    + now rewrite <- app_assoc.
    + unfold keys in *. rewrite map_app. simpl. rewrite <- app_assoc. exact H.
Qed.

(** C1, as the code has it.  A text made of a part without separator and
    of well-formed markers with distinct file names, each followed by a
    content without separator, gives exactly one entry for each marker,
    under the name of the marker and in the order of the markers.  The
    content behind the last marker may be empty: its entry is there all
    the same. *)
Theorem splitter_on_markers (pre : string) (files : list (string * string)) :
  absent "---" pre ->
  Forall plain_file files ->
  files <> [] ->
  NoDup (map fst files) ->
  K8sGenerator._parse_output (pre ++ render files) = map cleaned files
  /\ List.length (K8sGenerator._parse_output (pre ++ render files))
     = List.length files
  /\ keys (K8sGenerator._parse_output (pre ++ render files)) = map fst files.
Proof.
  intros Hpre Hfiles Hne Hdup.
  assert (H : K8sGenerator._parse_output (pre ++ render files) = map cleaned files).
  { unfold K8sGenerator._parse_output.
    destruct (re_split_render files pre [] Hpre Hfiles) as (pieces & Hs & Hl).
    rewrite Hs. cbn [tl]. rewrite Hl, fold_store_distinct.
    - simpl. destruct files; [congruence|reflexivity].
    - simpl. now rewrite map_map. }
  rewrite H. split; [reflexivity|]. split.
  - apply length_map.
  - unfold keys. now rewrite map_map.
Qed.

Lemma splitter_on_markers_witness :
  K8sGenerator._parse_output
    ("Here are the files." ++ NL
       ++ render [("app.yaml", "kind: Pod" ++ NL); ("svc.yaml", "")])
  = [("app.yaml", "kind: Pod"); ("svc.yaml", "")].
Proof.
  apply (splitter_on_markers ("Here are the files." ++ NL)
           [("app.yaml", "kind: Pod" ++ NL); ("svc.yaml", "")]).
  - reflexivity.
  - repeat constructor; discriminate.
  - discriminate.
  - repeat constructor; simpl; intuition discriminate.
Defined.

(** C1 as stated fails.  A marker was found and nothing follows it: the
    claim gives no entry for it, the splitter keeps it with an empty
    content.  And two markers of one file give one entry, not two. *)
Lemma marker_without_content_is_kept :
  re_split file_pattern (marker "a.yaml") = [""; "a.yaml"; ""]
  /\ K8sGenerator._parse_output (marker "a.yaml") = [("a.yaml", "")]
  /\ List.length (K8sGenerator._parse_output (marker "a.yaml")) = 1
  /\ List.length (marker_entries twice_the_same_file) = 2
  /\ List.length (K8sGenerator._parse_output twice_the_same_file) = 1.
Proof. repeat split. Qed.

(** Without the line feed that ends it the last marker is no match of
    the pattern: its text stays in the content before it. *)
Example marker_without_line_end :
  K8sGenerator._parse_output
    (marker "a.yaml" ++ "x: 1" ++ NL ++ "---" ++ NL ++ "# FILE: b.yaml")
  = [("a.yaml", "x: 1" ++ NL ++ "---" ++ NL ++ "# FILE: b.yaml")].
Proof. reflexivity. Qed.

(* ================================================================== *)
(** * The fallback segmenter *)
(* ================================================================== *)

Lemma space_not_word a : is_space a = true -> is_word a = false.
Proof.
  destruct a as [b0 b1 b2 b3 b4 b5 b6 b7].
  destruct b0, b1, b2, b3, b4, b5, b6, b7; intros H; try reflexivity; discriminate H.
Qed.

Lemma blank_all_space s : blank s = all_chars is_space s.
Proof. induction s as [|a s IH]; simpl; [reflexivity|now rewrite IH]. Qed.

Section LoopsInverted.

Variable cls : ascii -> bool.
Variable k : string -> option found.

Lemma star_loop_taken s r :
  star_loop cls k s = Some r ->
  exists w t, s = w ++ t /\ all_chars cls w = true /\ k t = Some r.
Proof.
  revert r. induction s as [|a s IH]; intros r H; simpl in H.
  - now exists EmptyString, EmptyString.
  - destruct (cls a) eqn:Ha.
    + destruct (star_loop cls k s) as [r'|] eqn:E.
      * injection H as <-. destruct (IH r' eq_refl) as (w & t & -> & Hw & Hk).
        exists (String a w), t. simpl. now rewrite Ha, Hw.
      * now exists EmptyString, (String a s).
    + now exists EmptyString, (String a s).
Qed.

End LoopsInverted.

(** Before a [k] that matches everywhere without taking anything, as at
    the end of a pattern, the plus takes the whole run. *)
Lemma plus_loop_last cls k s g r :
  (forall t, k t = Some ([], t)) ->
  plus_loop cls k s = Some (g, r) ->
  exists t, s = g ++ t /\ g <> EmptyString /\ all_chars cls g = true
            /\ r = ([], t) /\ stops cls t.
Proof.
  intros Hk. revert g r.
  induction s as [|a s IH]; intros g r H; simpl in H; [discriminate|].
  destruct (cls a) eqn:Ha; [|discriminate].
  destruct (plus_loop cls k s) as [[g' r']|] eqn:E.
  - injection H as <- <-.
    destruct (IH g' r' eq_refl) as (t & -> & _ & Hg & -> & Ht).
    exists t. simpl. rewrite Ha, Hg. repeat split; auto. discriminate.
  - rewrite Hk in H. injection H as <- <-. exists s. simpl. rewrite Ha.
    repeat split; auto; [discriminate|].
    destruct s as [|b u]; [exact I|]. simpl in E |- *.
    destruct (cls b); [|reflexivity].
    destruct (plus_loop cls k u) as [[? ?]|]; [discriminate|].
    rewrite Hk in E. discriminate.
Qed.

Lemma re_match_lit_inv x p s r :
  re_match (lit x ++ p)%list s = Some r ->
  exists t, s = x ++ t /\ re_match p t = Some r.
Proof.
  revert s. induction x as [|c x IH]; intros s H; simpl in H.
  - now exists s.
  - destruct s as [|a s]; [discriminate|].
    destruct (Ascii.eqb_spec a c) as [->|]; [|discriminate].
    destruct (IH s H) as (t & -> & Ht). now exists t.
Qed.

(** The pattern [kind:\s*(\w+)] matches at the start of a text exactly
    when the text starts with [kind:], white space and an identifier, and
    the group is the whole identifier. *)
Lemma kind_pattern_matches s ident :
  kind_here s ident ->
  exists rest, re_match K8sGenerator.kind_pattern s = Some ([ident], rest).
Proof.
  intros (sp & rest & -> & Hsp & Hne & Hid & Hrest). exists rest.
  unfold K8sGenerator.kind_pattern. rewrite re_match_lit.
  change (re_match [Star is_space; CapPlus is_word])
    with (star_loop is_space (re_match [CapPlus is_word])).
  rewrite blank_all_space in Hsp.
  rewrite (star_loop_run is_space _ sp (ident ++ rest) Hsp).
  2:{ intros a u Ha. simpl. now rewrite (space_not_word a Ha). }
  rewrite star_loop_stop.
  2:{ destruct ident as [|a ident]; [congruence|]. simpl in Hid |- *.
      apply andb_true_iff in Hid as [Ha _].
      destruct (is_space a) eqn:E; [|reflexivity].
      apply space_not_word in E. congruence. }
  cbn [re_match].
  now rewrite (plus_loop_run is_word _ ident rest ([], rest) Hne Hid Hrest eq_refl).
Qed.

Lemma kind_pattern_matched s gs rest :
  re_match K8sGenerator.kind_pattern s = Some (gs, rest) ->
  exists ident, gs = [ident] /\ kind_here s ident.
Proof.
  intros H. unfold K8sGenerator.kind_pattern in H.
  apply re_match_lit_inv in H as (t & -> & H).
  change (re_match [Star is_space; CapPlus is_word])
    with (star_loop is_space (re_match [CapPlus is_word])) in H.
  apply star_loop_taken in H as (sp & t' & -> & Hsp & H).
  change (re_match [CapPlus is_word] t')
    with (match plus_loop is_word (re_match []) t' with
          | Some (g, (gs, rest)) => Some (g :: gs, rest)
          | None => None
          end) in H.
  destruct (plus_loop is_word (re_match []) t') as [[g [gs' rest']]|] eqn:E;
    [|discriminate].
  injection H as <- <-.
  apply plus_loop_last in E as (u & -> & Hne & Hg & [= -> ->] & Hu);
    [|reflexivity].
  exists g. split; [reflexivity|].
  exists sp, u. rewrite blank_all_space. auto 6.
Qed.

Section Searching.

Variable p : regex.

Lemma re_search_none doc :
  re_search p doc = None <->
  forall before s, doc = before ++ s -> re_match p s = None.
Proof.
  induction doc as [|c doc IH]; simpl.
  - destruct (re_match p "") eqn:E; split; try discriminate; auto.
    + intros H. now rewrite (H "" "" eq_refl) in E.
    + intros _ [|a b] s Hs; [simpl in Hs; now subst|discriminate].
  - destruct (re_match p (String c doc)) eqn:E.
    + split; [discriminate|]. intros H. now rewrite (H "" _ eq_refl) in E.
    + rewrite IH. split.
      * intros H [|a b] s Hs; simpl in Hs; [now subst|].
        injection Hs as <- ->. now apply (H b).
      * intros H before s ->. now apply (H (String c before)).
Qed.

Lemma re_search_first before : forall doc s r,
  doc = before ++ s ->
  re_match p s = Some r ->
  (forall b1 s1, doc = b1 ++ s1 -> String.length b1 < String.length before ->
                 re_match p s1 = None) ->
  re_search p doc = Some r.
Proof.
  induction before as [|c before IH]; intros doc s r -> Hs Hnone.
  - simpl. destruct s; simpl; now rewrite Hs.
  - simpl. rewrite (Hnone "" (String c (before ++ s)) eq_refl) by (simpl; lia).
    apply (IH _ s r eq_refl Hs).
    intros b1 s1 H1 Hlt. apply (Hnone (String c b1) s1).
    + simpl. now rewrite H1.
    + simpl. lia.
Qed.

Lemma re_search_some doc : forall r,
  re_search p doc = Some r ->
  exists before s,
    doc = before ++ s /\ re_match p s = Some r
    /\ forall b1 s1, doc = b1 ++ s1 ->
                     String.length b1 < String.length before ->
                     re_match p s1 = None.
Proof.
  induction doc as [|c doc IH]; intros r H; cbn [re_search] in H.
  - destruct (re_match p "") as [r'|] eqn:E; [|discriminate].
    injection H as <-. exists "", "". repeat split; auto.
    intros b1 s1 _ Hlt. simpl in Hlt. lia.
  - destruct (re_match p (String c doc)) as [r'|] eqn:E.
    + injection H as <-. exists "", (String c doc). repeat split; auto.
      intros b1 s1 _ Hlt. simpl in Hlt. lia.
    + destruct (IH r H) as (before & s & -> & Hs & Hnone).
      exists (String c before), s. repeat split; auto.
      intros [|a b] s1 H1 Hlt; simpl in H1.
      * now subst s1.
      * injection H1 as <- H1. apply (Hnone b s1 H1). simpl in Hlt. lia.
Qed.

End Searching.

Lemma nth_error_named_from docs : forall base i doc,
  nth_error docs i = Some doc ->
  nth_error (named_from docs base) i = Some (K8sGenerator.name_document (base + i) doc).
Proof.
  induction docs as [|d docs IH]; intros base [|i] doc H; simpl in *; try discriminate.
  - injection H as ->. now rewrite Nat.add_0_r.
  - rewrite (IH (S base) i doc H). do 2 f_equal. lia.
Qed.

(** The name the fallback gives to a cleaned fragment. *)
Lemma name_document_kind i doc ident :
  first_kind (K8sGenerator.clean_up doc) ident ->
  K8sGenerator.name_document i doc
  = (lower ident ++ ".yaml", K8sGenerator.clean_up doc).
Proof.
  intros (before & s & Hdoc & Hk & Hfirst). unfold K8sGenerator.name_document.
  destruct (kind_pattern_matches s ident Hk) as [rest Hm].
  rewrite (re_search_first _ before _ s _ Hdoc Hm); [reflexivity|].
  intros b1 s1 H1 Hlt.
  destruct (re_match K8sGenerator.kind_pattern s1) as [[gs r]|] eqn:E; [|reflexivity].
  apply kind_pattern_matched in E as (id & _ & Hid).
  exfalso. exact (Hfirst b1 s1 id H1 Hlt Hid).
Qed.

Lemma name_document_no_kind i doc :
  no_kind (K8sGenerator.clean_up doc) ->
  K8sGenerator.name_document i doc
  = ("manifest-" ++ str_of_nat (i + 1) ++ ".yaml", K8sGenerator.clean_up doc).
Proof.
  intros Hno. unfold K8sGenerator.name_document.
  replace (re_search K8sGenerator.kind_pattern (K8sGenerator.clean_up doc))
    with (@None found); [reflexivity|].
  apply eq_sym, re_search_none. intros before s Hs.
  destruct (re_match K8sGenerator.kind_pattern s) as [[gs r]|] eqn:E; [|reflexivity].
  apply kind_pattern_matched in E as (id & _ & Hid).
  exfalso. exact (Hno before s id Hs Hid).
Qed.

(** Every fragment has a first kind or none. *)
Lemma first_kind_or_none doc : (exists ident, first_kind doc ident) \/ no_kind doc.
Proof.
  destruct (re_search K8sGenerator.kind_pattern doc) as [[gs r]|] eqn:E.
  - left. apply re_search_some in E as (before & s & Hdoc & Hm & Hnone).
    apply kind_pattern_matched in Hm as (id & _ & Hid).
    exists id, before, s. repeat split; auto.
    intros b1 s1 id1 H1 Hlt Hk.
    apply kind_pattern_matches in Hk as [rest Hm].
    rewrite (Hnone b1 s1 H1 Hlt) in Hm. discriminate.
  - right. intros before s id Hs Hk.
    apply kind_pattern_matches in Hk as [rest Hm].
    rewrite (proj1 (re_search_none _ doc) E before s Hs) in Hm. discriminate.
Qed.

(** C7.  Without file markers, the fragment at position [i] (from 0) of
    the non-empty fragments is stored, once its fences are removed, under
    the lowercased identifier of its first [kind:] with [.yaml], and
    under [manifest-<i+1>.yaml] when it has no [kind:] with an
    identifier, and one of the two is the case; the text of the
    specification gives [pod.yaml] and [manifest-2.yaml]. *)
Theorem fallback_names (output : string) (i : nat) (doc : string) :
  marker_entries output = [] ->
  nth_error (K8sGenerator.documents output) i = Some doc ->
  (exists name,
     nth_error (k8s_entries output) i = Some (name, K8sGenerator.clean_up doc)
     /\ (forall ident, first_kind (K8sGenerator.clean_up doc) ident ->
                       name = lower ident ++ ".yaml")
     /\ (no_kind (K8sGenerator.clean_up doc) ->
         name = "manifest-" ++ str_of_nat (i + 1) ++ ".yaml"))
  /\ ((exists ident, first_kind (K8sGenerator.clean_up doc) ident)
      \/ no_kind (K8sGenerator.clean_up doc))
  /\ K8sGenerator._parse_output two_fragments
     = [("pod.yaml", "kind: Pod" ++ NL ++ "x: 1"); ("manifest-2.yaml", "y: 2")].
Proof.
  intros Hmark Hdoc. split; [|split; [apply first_kind_or_none|reflexivity]].
  exists (fst (K8sGenerator.name_document i doc)).
  unfold k8s_entries, fragment_entries. rewrite Hmark.
  rewrite (nth_error_named_from _ 0 i doc Hdoc). simpl (0 + i).
  split; [|split].
  - unfold K8sGenerator.name_document.
    now destruct (re_search K8sGenerator.kind_pattern (K8sGenerator.clean_up doc))
      as [[gs r]|].
  - intros ident H. now rewrite (name_document_kind i doc ident H).
  - intros H. now rewrite (name_document_no_kind i doc H).
Qed.

Lemma fallback_names_witness :
  marker_entries two_fragments = []
  /\ nth_error (K8sGenerator.documents two_fragments) 1 = Some "y: 2"
  /\ exists name,
       nth_error (k8s_entries two_fragments) 1 = Some (name, "y: 2")
       /\ (forall ident, first_kind "y: 2" ident -> name = lower ident ++ ".yaml")
       /\ (no_kind "y: 2" -> name = "manifest-2.yaml").
Proof.
  split; [reflexivity|]. split; [reflexivity|].
  apply (fallback_names two_fragments 1 "y: 2"); reflexivity.
Defined.


(* ================================================================== *)
(** * More on the manifest validator *)
(* ================================================================== *)

Lemma consistent_add_error r m : consistent r -> consistent (add_error r m).
Proof. apply (consistent_call r (AddError m)). Qed.

Lemma consistent_add_warning r m : consistent r -> consistent (add_warning r m).
Proof. apply (consistent_call r (AddWarning m)). Qed.

Lemma consistent_add_suggestion r m : consistent r -> consistent (add_suggestion r m).
Proof. apply (consistent_call r (AddSuggestion m)). Qed.

Section Keeps.

Variable P : ValidationResult -> Prop.

Lemma keeps_ret {A} (a : A) : keeps P (ret a).
Proof. intros r H. exact H. Qed.

Lemma keeps_eval {A} (x : exn + A) : keeps P (eval x).
Proof. intros r H. exact H. Qed.

Lemma keeps_tell f m : (forall r, P r -> P (f r m)) -> keeps P (tell f m).
Proof. intros Hf r H. apply Hf, H. Qed.

Lemma keeps_bind {A B} (c : M A) (k : A -> M B) :
keeps P c -> (forall a, keeps P (k a)) -> keeps P (bind c k).
Proof.
intros Hc Hk r H. unfold bind. specialize (Hc r H).
destruct (c r) as [[e|a] r']; simpl in *; [exact Hc|].
apply Hk, Hc.
Qed.

Lemma keeps_when b (c : M unit) : keeps P c -> keeps P (when b c).
Proof. intros Hc. destruct b; [exact Hc|apply keeps_ret]. Qed.

End Keeps.

Ltac keeps_steps :=
  repeat first
    [ apply keeps_ret
    | apply keeps_eval
    | apply keeps_when
    | apply keeps_tell; intros;
      first [ apply consistent_add_error | apply consistent_add_warning
            | apply consistent_add_suggestion ]; assumption
    | apply keeps_bind; [|intros ?]
    | match goal with
      | |- keeps _ (if ?b then _ else _) => destruct b
      end ].

Lemma inspect_consistent v : keeps consistent (inspect v).
Proof.
  unfold inspect, deployment_checks, service_checks. keeps_steps.
Qed.

Lemma terraform_consistent content : consistent (validate_terraform_syntax content).
Proof.
  unfold validate_terraform_syntax.
  destruct (is_empty (strip content)); [apply consistent_add_error, consistent_new|].
  repeat match goal with
         | |- context [if ?b then _ else _] => destruct b
         end;
    repeat first [ apply consistent_add_error | apply consistent_add_warning
                 | apply consistent_add_suggestion | apply consistent_new ].
Qed.

Lemma dockerfile_consistent content : consistent (validate_dockerfile content).
Proof.
  unfold validate_dockerfile.
  destruct (layer_scan _ _ _ _) as [copy_index run_index].
  repeat match goal with
         | |- context [if ?b then _ else _] => destruct b
         end;
    repeat first [ apply consistent_add_error | apply consistent_add_warning
                 | apply consistent_add_suggestion | apply consistent_new ].
Qed.

Lemma kubernetes_consistent safe_load content :
  match validate_kubernetes_manifest safe_load content with
  | Returned r => consistent r
  | Raised _ => True
  end.
Proof.
  unfold validate_kubernetes_manifest, validate_yaml_syntax.
  destruct (safe_load content) as [v|e] eqn:E.
  - cbn [valid new_result negb]. unfold try_body. rewrite E.
    pose proof (inspect_consistent v new_result consistent_new) as H.
    unfold bind, eval. destruct (inspect v new_result) as [[e|u] r]; simpl in H.
    + now apply consistent_add_error.
    + exact H.
  - destruct (is_YAMLError e); [|exact I]. simpl.
    apply consistent_add_error, consistent_new.
Qed.

Lemma yaml_syntax_consistent safe_load content :
  match validate_yaml_syntax safe_load content with
  | Returned r => consistent r
  | Raised _ => True
  end.
Proof.
  unfold validate_yaml_syntax. destruct (safe_load content) as [v|e].
  - apply consistent_new.
  - destruct (is_YAMLError e); [|exact I].
    apply consistent_add_error, consistent_new.
Qed.

(** X1.  Whatever the code type and the content, a result that the
    dispatcher returns has [valid] true exactly when it has no error; so
    have the results of the four validators. *)
Theorem validators_consistent
    (safe_load : string -> loaded) (content code_type : string) :
  match validate_generated_code safe_load content code_type with
  | Returned r => consistent r
  | Raised _ => True
  end
  /\ consistent (validate_terraform_syntax content)
  /\ consistent (validate_dockerfile content)
  /\ match validate_kubernetes_manifest safe_load content with
     | Returned r => consistent r
     | Raised _ => True
     end.
Proof.
  split; [|split; [apply terraform_consistent|split;
                   [apply dockerfile_consistent|apply kubernetes_consistent]]].
  unfold validate_generated_code, validators. cbn [table_get].
  destruct (String.eqb "kubernetes" code_type); [apply kubernetes_consistent|].
  destruct (String.eqb "terraform" code_type); [apply terraform_consistent|].
  destruct (String.eqb "docker" code_type); [apply dockerfile_consistent|].
  apply yaml_syntax_consistent.
Qed.

(** X2.  The manifest validator raises exactly when the loader raises an
    exception that is not a YAML error, and then it raises that
    exception. *)
Theorem kubernetes_validator_raises_exactly
    (safe_load : string -> loaded) (content : string) (e : exn) :
  validate_kubernetes_manifest safe_load content = Raised e
  <-> (safe_load content = Throws e /\ is_YAMLError e = false).
Proof.
  unfold validate_kubernetes_manifest, validate_yaml_syntax. split.
  - destruct (safe_load content) as [v|e'] eqn:E.
    + cbn [valid new_result negb].
      destruct (try_body safe_load content new_result) as [[x|u] r]; discriminate.
    + destruct (is_YAMLError e') eqn:Ey; simpl; [discriminate|].
      intros [= <-]. auto.
  - intros [-> ->]. reflexivity.
Qed.

(** X3.  On a YAML error of the loader the manifest validator returns
    at once: the result has the one error of the syntax check and nothing
    of the inspection. *)
Theorem kubernetes_syntax_error_only
    (safe_load : string -> loaded) (content : string) (e : exn) :
  safe_load content = Throws e ->
  is_YAMLError e = true ->
  validate_kubernetes_manifest safe_load content
  = Returned (errors_only ["YAML syntax error: " ++ exn_str e]).
Proof.
  intros Hl He. unfold validate_kubernetes_manifest, validate_yaml_syntax.
  rewrite Hl, He. reflexivity.
Qed.

Lemma kubernetes_syntax_error_only_witness :
  example_load unclosed_text = Throws (mk_exn YAMLError "while parsing a flow sequence")
  /\ validate_kubernetes_manifest example_load unclosed_text
     = Returned (errors_only ["YAML syntax error: while parsing a flow sequence"]).
Proof.
  split; [reflexivity|].
  apply (kubernetes_syntax_error_only example_load unclosed_text
           (mk_exn YAMLError "while parsing a flow sequence")); reflexivity.
Defined.

(** ** The inspection of a document *)

Lemma errors_only_add es m :
  add_error (errors_only es) m = errors_only (es ++ [m]).
Proof. unfold add_error, errors_only. simpl. now destruct es. Qed.

(** On a mapping whose metadata check does not raise, the inspection
    comes to the branch of the kind with the errors of the required
    fields and nothing else. *)
Lemma inspect_dispatch items :
  metadata_checkable items ->
  inspect (YMap items) new_result
  = kind_branch items (errors_only (required_errors items)).
Proof.
  intros Hmeta. unfold metadata_checkable in Hmeta.
  unfold inspect, kind_branch, required_errors, has_key,
    bind, eval, tell, when, ret.
  simpl py_in. simpl py_get.
  destruct (map_lookup items "metadata") as [md|] eqn:Hmd.
  - destruct Hmeta as [b Hb]. simpl getitem. rewrite Hmd, Hb.
    destruct (map_lookup items "apiVersion"), (map_lookup items "kind") as [k|], b;
      cbn [negb]; cbv iota; try reflexivity;
      cbn [eq_str]; simpl (String.eqb _ _); reflexivity.
  - destruct (map_lookup items "apiVersion"), (map_lookup items "kind") as [k|];
      cbn [negb]; cbv iota; try reflexivity;
      cbn [eq_str]; simpl (String.eqb _ _); reflexivity.
Qed.

Section Inspected.

Variable safe_load : string -> loaded.

(** The result of the validator from the run of the inspection. *)
Lemma kubernetes_validator_run content v :
safe_load content = Document v ->
validate_kubernetes_manifest safe_load content
= Returned (match inspect v new_result with
            | (inr _, r) => r
            | (inl e, r) => add_error r ("Validation error: " ++ exn_str e)
            end).
Proof.
intros Hl. unfold validate_kubernetes_manifest, validate_yaml_syntax, try_body.
rewrite Hl. cbn [valid new_result negb]. unfold bind, eval.
now destruct (inspect v new_result) as [[e|u] r].
Qed.

End Inspected.




(** A list that has none of the required fields as an item gets the
    three errors of the required fields before the fault. *)
Example kubernetes_on_a_list :
  validate_kubernetes_manifest example_load ("- a" ++ NL ++ "- b")
  = Returned
      (errors_only
         [ "Missing required field: apiVersion";
           "Missing required field: kind";
           "Missing required field: metadata";
           "Validation error: 'list' object has no attribute 'get'" ]).
Proof. reflexivity. Qed.

(** X5.  For a mapping whose kind is neither Deployment nor Service (or
    that has no kind) the result has exactly the errors of the required
    fields, one for each of apiVersion, kind and metadata that is
    missing and one for a metadata without name, in this order; it has no
    warning and no suggestion, and it is valid when there is no such
    error. *)
Theorem kubernetes_other_kind
    (safe_load : string -> loaded) (content : string) (items : list (yaml * yaml)) :
  safe_load content = Document (YMap items) ->
  metadata_checkable items ->
  other_kind items ->
  validate_kubernetes_manifest safe_load content
  = Returned (errors_only (required_errors items)).
Proof.
  intros Hl Hmeta Hkind.
  rewrite (kubernetes_validator_run safe_load content _ Hl).
  rewrite (inspect_dispatch items Hmeta). unfold kind_branch, other_kind in *.
  destruct (map_lookup items "kind") as [k|]; [|reflexivity].
  destruct Hkind as [-> ->]. reflexivity.
Qed.

Lemma kubernetes_other_kind_witness :
  example_load configmap_text = Document (YMap configmap_items)
  /\ validate_kubernetes_manifest example_load configmap_text
     = Returned (errors_only [ "Missing required field: apiVersion";
                               "Missing required field: metadata.name" ]).
Proof.
  split; [reflexivity|].
  apply (kubernetes_other_kind example_load configmap_text configmap_items).
  - reflexivity.
  - unfold metadata_checkable. simpl. now exists false.
  - unfold other_kind. simpl. auto.
Defined.

(** X6.  For a mapping of kind Service whose metadata check does not
    raise (there is no metadata, or [in] accepts the metadata), the
    errors are those of the required fields and then: the missing spec when there is no spec; the
    missing ports when [in] finds no ports in the spec; the fault when the
    spec is a value [in] does not accept; nothing when the ports are
    there.  A Service gets no warning and no suggestion. *)
Theorem kubernetes_service
    (safe_load : string -> loaded) (content : string) (items : list (yaml * yaml)) :
  safe_load content = Document (YMap items) ->
  metadata_checkable items ->
  map_lookup items "kind" = Some (YStr "Service") ->
  validate_kubernetes_manifest safe_load content
  = Returned (errors_only (required_errors items ++ service_errors items)).
Proof.
  intros Hl Hmeta Hkind.
  rewrite (kubernetes_validator_run safe_load content _ Hl).
  rewrite (inspect_dispatch items Hmeta). unfold kind_branch. rewrite Hkind.
  cbn [eq_str]. simpl (String.eqb _ _). cbv iota.
  unfold service_checks, service_errors, bind, eval, tell, when, ret.
  change (py_in "spec" (YMap items))
    with (@inr exn bool (match map_lookup items "spec" with
                         | Some _ => true | None => false end)).
  unfold getitem.
  destruct (map_lookup items "spec") as [spec|]; cbn [negb]; cbv beta iota.
  - destruct (py_in "ports" spec) as [e|[|]]; cbn [negb]; cbv beta iota.
    + rewrite <- errors_only_add. reflexivity.
    + now rewrite app_nil_r.
    + rewrite <- errors_only_add. reflexivity.
  - rewrite <- errors_only_add. reflexivity.
Qed.

Lemma kubernetes_service_witness :
  example_load service_text = Document (YMap service_items)
  /\ validate_kubernetes_manifest example_load service_text
     = Returned (errors_only ["Service missing spec field"]).
Proof.
  split; [reflexivity|].
  apply (kubernetes_service example_load service_text service_items).
  - reflexivity.
  - unfold metadata_checkable. simpl. now exists true.
  - reflexivity.
Defined.

(** The warning of the Deployment branch is made before anything of the
    branch can raise, and nothing else of the branch is a warning. *)
Lemma deployment_checks_warnings items r :
  warnings (snd (deployment_checks (YMap items) r))
  = (warnings r ++ replicas_warning items)%list.
Proof.
  unfold deployment_checks, replicas_warning, bind, eval, tell, when, ret.
  change (py_in "spec" (YMap items))
    with (@inr exn bool (match map_lookup items "spec" with
                         | Some _ => true | None => false end)).
  change (getitem (YMap items) "spec")
    with (match map_lookup items "spec" with
          | Some v => @inr exn yaml v
          | None => inl (mk_exn KeyError ("'" ++ "spec" ++ "'"))
          end).
  destruct (map_lookup items "spec") as [spec|]; cbn [negb]; cbv beta iota.
  2:{ simpl. now rewrite app_nil_r. }
  destruct (py_in "replicas" spec) as [e|[|]] eqn:Hrep; cbn [negb]; cbv iota.
  { simpl. now rewrite app_nil_r. }
  all: destruct (py_in "template" spec) as [e|[|]]; cbv iota beta;
    try (simpl; now rewrite ?app_nil_r).
  all: destruct (getitem spec "template") as [e|t]; cbv iota beta;
    try (simpl; now rewrite ?app_nil_r).
  all: destruct (py_get t "spec" (YMap [])) as [e|ts]; cbv iota beta;
    try (simpl; now rewrite ?app_nil_r).
  all: destruct (py_in "securityContext" ts) as [e|[|]]; cbn [negb]; cbv iota beta;
    simpl; now rewrite ?app_nil_r.
Qed.

(** X7.  For a mapping of kind Deployment whose metadata check does not
    raise (there is no metadata, or [in] accepts the metadata), the
    validator returns a result, and the warnings of the result are
    the replicas warning when the spec is there and [in] finds no
    replicas in it, and nothing otherwise; the warning stays when the
    branch raises later; without spec the result has the errors of the
    required fields and the error of the missing spec. *)
Theorem kubernetes_deployment_warning
    (safe_load : string -> loaded) (content : string) (items : list (yaml * yaml)) :
  safe_load content = Document (YMap items) ->
  metadata_checkable items ->
  map_lookup items "kind" = Some (YStr "Deployment") ->
  exists r,
    validate_kubernetes_manifest safe_load content = Returned r
    /\ warnings r = replicas_warning items
    /\ (map_lookup items "spec" = None ->
        r = errors_only (required_errors items ++ ["Deployment missing spec field"])).
Proof.
  intros Hl Hmeta Hkind.
  rewrite (kubernetes_validator_run safe_load content _ Hl).
  rewrite (inspect_dispatch items Hmeta). unfold kind_branch. rewrite Hkind.
  cbn [eq_str]. simpl (String.eqb _ _). cbv iota.
  pose proof (deployment_checks_warnings items (errors_only (required_errors items)))
    as Hw.
  eexists. split; [reflexivity|]. split.
  - destruct (deployment_checks (YMap items) (errors_only (required_errors items)))
      as [[e|u] r]; simpl in Hw |- *; exact Hw.
  - intros Hspec. unfold deployment_checks, bind, eval, tell, when, ret.
    change (py_in "spec" (YMap items))
      with (@inr exn bool (match map_lookup items "spec" with
                           | Some _ => true | None => false end)).
    rewrite Hspec. cbn [negb]; cbv beta iota.
    rewrite <- errors_only_add. reflexivity.
Qed.

Lemma kubernetes_deployment_warning_witness :
  example_load deployment_text = Document (YMap deployment_items)
  /\ validate_kubernetes_manifest example_load deployment_text
     = Returned
         {| valid := false;
            errors := ["Validation error: 'str' object has no attribute 'get'"];
            warnings := [MSG_REPLICAS];
            suggestions := [] |}
  /\ exists r,
       validate_kubernetes_manifest example_load deployment_text = Returned r
       /\ warnings r = replicas_warning deployment_items
       /\ (map_lookup deployment_items "spec" = None ->
           r = errors_only (required_errors deployment_items
                              ++ ["Deployment missing spec field"])).
Proof.
  split; [reflexivity|]. split; [reflexivity|].
  apply (kubernetes_deployment_warning example_load deployment_text deployment_items).
  - reflexivity.
  - unfold metadata_checkable. simpl. now exists true.
  - reflexivity.
Defined.

(** X8.  A Deployment that has the required fields, a name, and a spec
    with replicas and a template whose pod spec has a security context
    gets the fresh result: valid, with no error, no warning and no
    suggestion. *)
Theorem kubernetes_complete_deployment
    (safe_load : string -> loaded) (content : string) (items : list (yaml * yaml)) :
  safe_load content = Document (YMap items) ->
  complete_deployment items ->
  validate_kubernetes_manifest safe_load content = Returned new_result.
Proof.
  intros Hl (Hapi & Hkind & (md & Hmd & Hname) & spec & t & ps & Hspec & Hrep & Ht & Hps & Hsc).
  rewrite (kubernetes_validator_run safe_load content _ Hl).
  rewrite inspect_dispatch.
  2:{ unfold metadata_checkable. rewrite Hmd. now exists true. }
  unfold kind_branch, required_errors, has_key in *. rewrite Hkind, Hmd, Hname.
  destruct (map_lookup items "apiVersion"); [|discriminate].
  cbn [eq_str]. simpl (String.eqb _ _). cbv iota. cbn [app].
  unfold deployment_checks, bind, eval, tell, when, ret.
  change (py_in "spec" (YMap items))
    with (@inr exn bool (match map_lookup items "spec" with
                         | Some _ => true | None => false end)).
  unfold getitem at 1 2 3. rewrite Hspec. cbn [negb]. cbv beta iota.
  change (py_in "replicas" (YMap spec))
    with (@inr exn bool (match map_lookup spec "replicas" with
                         | Some _ => true | None => false end)).
  change (py_in "template" (YMap spec))
    with (@inr exn bool (match map_lookup spec "template" with
                         | Some _ => true | None => false end)).
  rewrite Hrep. unfold getitem. rewrite Ht. cbn [negb]. cbv beta iota.
  unfold py_get. rewrite Hps. cbv beta iota. rewrite Hsc. reflexivity.
Qed.

Lemma kubernetes_complete_deployment_witness :
  full_load full_deployment_text = Document (YMap full_deployment_items)
  /\ validate_kubernetes_manifest full_load full_deployment_text
     = Returned new_result.
Proof.
  split; [reflexivity|].
  apply (kubernetes_complete_deployment full_load full_deployment_text
           full_deployment_items); [reflexivity|].
  unfold complete_deployment. split; [reflexivity|]. split; [reflexivity|].
  split; [eexists; split; reflexivity|].
  do 3 eexists. repeat split; reflexivity.
Defined.

(* ================================================================== *)
(** * More on the Terraform and the Dockerfile validator *)
(* ================================================================== *)

(** [in] finds the occurrences. *)
Lemma str_in_occurs sub s : str_in sub s = true <-> occurs sub s.
Proof.
  unfold occurs. split.
  - induction s as [|c s IH]; cbn [str_in]; intros H.
    + rewrite orb_false_r in H. apply startswith_split in H as [t Ht].
      exists EmptyString, t. exact Ht.
    + apply orb_true_iff in H as [H|H].
      * apply startswith_split in H as [t Ht]. exists EmptyString, t. exact Ht.
      * destruct (IH H) as (a & b & ->). now exists (String c a), b.
  - intros (a & b & ->). induction a as [|c a IH].
    + simpl append. destruct (sub ++ b) eqn:E; cbn [str_in]; rewrite <- E;
        now rewrite startswith_app.
    + simpl append. cbn [str_in]. rewrite IH. apply orb_true_r.
Qed.

Lemma absent_not_occurs sub s : absent sub s <-> ~ occurs sub s.
Proof.
  unfold absent. rewrite <- str_in_occurs.
  destruct (str_in sub s); split; congruence.
Qed.

(** [count] of a text of one character counts the character. *)
Lemma count_one_char c s : count s (String c "") = count_char c s.
Proof.
  unfold count. induction s as [|a s IH]; [reflexivity|].
  cbn [count_from count_char startswith String.length].
  rewrite andb_true_r. simpl (1 - 1). rewrite IH.
  now destruct (Ascii.eqb a c).
Qed.

Lemma blank_false_strip content : blank content = false -> is_empty (strip content) = false.
Proof.
  intros H. destruct (strip content) eqn:E; [|reflexivity].
  apply strip_empty_blank in E. congruence.
Qed.

(** X9.  On a text that is not blank the Terraform validator gives a
    valid result exactly when the text has as many opening as closing
    braces; otherwise the one error tells the two numbers. *)
Theorem terraform_valid_iff_balanced (content : string) :
  blank content = false ->
  (valid (validate_terraform_syntax content) = true
   <-> count_char "{" content = count_char "}" content)
  /\ (count_char "{" content = count_char "}" content ->
      errors (validate_terraform_syntax content) = [])
  /\ (count_char "{" content <> count_char "}" content ->
      errors (validate_terraform_syntax content)
      = ["Unbalanced braces: " ++ str_of_nat (count_char "{" content)
           ++ " opening, " ++ str_of_nat (count_char "}" content) ++ " closing"]).
Proof.
  intros Hb. unfold validate_terraform_syntax.
  rewrite (blank_false_strip _ Hb), !count_one_char.
  destruct (Nat.eqb_spec (count_char "{" content) (count_char "}" content)) as [E|E];
    cbn [negb];
    destruct (str_in ("provider " ++ DQUOTE) content), (str_in "terraform {" content);
    cbn [negb valid errors add_error add_warning add_suggestion new_result app];
    repeat split; intros; congruence.
Qed.

Lemma terraform_valid_iff_balanced_witness :
  blank "a { b { }" = false
  /\ errors (validate_terraform_syntax "a { b { }")
     = ["Unbalanced braces: 2 opening, 1 closing"].
Proof.
  split; [reflexivity|].
  apply (terraform_valid_iff_balanced "a { b { }"); [reflexivity|].
  simpl. discriminate.
Defined.

(** X10.  On a text that is not blank the Terraform validator warns
    exactly when the word provider with a space and a double quote
    behind it occurs nowhere in the text, and suggests
    the terraform block exactly when [terraform {] occurs nowhere; it
    gives nothing else as a warning or a suggestion, whatever the braces
    are. *)
Theorem terraform_advisories (content : string) :
  blank content = false ->
  warnings (validate_terraform_syntax content)
  = (if str_in ("provider " ++ DQUOTE) content then [] else [MSG_NO_PROVIDER])
  /\ suggestions (validate_terraform_syntax content)
     = (if str_in "terraform {" content then [] else [MSG_TF_BLOCK])
  /\ (warnings (validate_terraform_syntax content) = [MSG_NO_PROVIDER]
      <-> ~ occurs ("provider " ++ DQUOTE) content)
  /\ (suggestions (validate_terraform_syntax content) = [MSG_TF_BLOCK]
      <-> ~ occurs "terraform {" content).
Proof.
  intros Hb. rewrite <- !absent_not_occurs. unfold absent.
  unfold validate_terraform_syntax. rewrite (blank_false_strip _ Hb).
  destruct (negb (count content "{" =? count content "}")%nat);
    destruct (str_in ("provider " ++ DQUOTE) content), (str_in "terraform {" content);
    cbn [negb warnings suggestions add_error add_warning add_suggestion new_result app];
    repeat split; intros; congruence.
Qed.

Lemma terraform_advisories_witness :
  blank "terraform { }" = false
  /\ warnings (validate_terraform_syntax "terraform { }") = [MSG_NO_PROVIDER]
  /\ suggestions (validate_terraform_syntax "terraform { }") = [].
Proof.
  split; [reflexivity|].
  destruct (terraform_advisories "terraform { }" eq_refl) as (Hw & Hs & _).
  split; [exact Hw|exact Hs].
Defined.

(** X11.  The Dockerfile validator gives a valid result exactly when some
    line of the trimmed text starts, once trimmed, with FROM, on whatever
    line that is; it never warns, it has at most the one error of the
    missing FROM, and it suggests WORKDIR and USER exactly when the word
    occurs nowhere in the text. *)
Theorem dockerfile_valid_iff_from (content : string) :
  (valid (validate_dockerfile content) = true
   <-> exists line, In line (dockerfile_lines content)
                    /\ startswith (strip line) "FROM" = true)
  /\ warnings (validate_dockerfile content) = []
  /\ (errors (validate_dockerfile content) = []
      \/ errors (validate_dockerfile content) = [MSG_FROM])
  /\ (In MSG_WORKDIR (suggestions (validate_dockerfile content))
      <-> ~ occurs "WORKDIR" content)
  /\ (In MSG_USER (suggestions (validate_dockerfile content))
      <-> ~ occurs "USER" content).
Proof.
  rewrite <- !absent_not_occurs. unfold absent.
  assert (Hex : existsb (fun line => startswith (strip line) "FROM")
                  (dockerfile_lines content) = true
                <-> exists line, In line (dockerfile_lines content)
                                 /\ startswith (strip line) "FROM" = true)
    by apply existsb_exists.
  rewrite <- Hex. clear Hex.
  unfold validate_dockerfile. fold (dockerfile_lines content).
  destruct (layer_scan (dockerfile_lines content) 0 (-1) (-1)) as [ci ri].
  destruct (existsb _ (dockerfile_lines content)),
    (str_in "WORKDIR" content), (str_in "USER" content),
    ((ci >? -1)%Z && (ri >? -1)%Z && (ci >? ri)%Z);
    cbn [negb valid errors warnings suggestions add_error add_warning
           add_suggestion new_result app In];
    repeat split; intros; try congruence; auto;
    try (now left); try (now right);
    repeat match goal with
           | H : _ \/ _ |- _ => destruct H
           | H : False |- _ => destruct H
           end; try discriminate.
Qed.

(* ================================================================== *)
(** * More on the parsers *)
(* ================================================================== *)

(** What a clean-up gives has no fence and is trimmed. *)
Lemma fence_free_trimmed s :
  absent FENCE (strip (replace s FENCE "")) 
  /\ strip (strip (replace s FENCE "")) = strip (replace s FENCE "").
Proof.
  split; [apply absent_strip, replace_fence_absent|apply strip_idempotent].
Qed.

Lemma last_value_in entries : forall k v,
  last_value entries k = Some v -> In (k, v) entries.
Proof.
  induction entries as [|[k0 v0] r IH]; intros k v H; simpl in H; [discriminate|].
  destruct (last_value r k) as [x|] eqn:E.
  - injection H as ->. right. now apply IH.
  - destruct (String.eqb_spec k0 k) as [->|]; [|discriminate].
    injection H as ->. now left.
Qed.

Lemma marker_pairs_values splits : forall k v,
  In (k, v) (marker_pairs splits) ->
  exists c, v = K8sGenerator.clean_up c.
Proof.
  induction splits as [|f|f c rest IH] using list_pair_ind; simpl; intros k v H;
    try contradiction.
  destruct H as [[= <- <-]|H]; [now exists (strip c)|now apply (IH k)].
Qed.

Lemma named_from_values docs : forall i k v,
  In (k, v) (named_from docs i) -> exists d, v = K8sGenerator.clean_up d.
Proof.
  induction docs as [|d docs IH]; simpl; intros i k v H; [contradiction|].
  destruct H as [H|H]; [|now apply (IH (S i) k)].
  exists d. unfold K8sGenerator.name_document in H.
  destruct (re_search K8sGenerator.kind_pattern (K8sGenerator.clean_up d))
    as [[gs r]|]; now injection H as _ <-.
Qed.

Lemma tf_marker_loop_fold splits : forall d,
  TerraformGenerator.marker_loop splits d
  = fold_left store (TerraformEntries.marker_pairs splits) d.
Proof.
  induction splits as [|f|f c rest IH] using list_pair_ind; intros d; simpl; auto.
Qed.

(** The Terraform parser as a sequence of assignments: the entries of the
    markers, or [main.tf] with the whole output when there is no marker. *)
Lemma tf_parse_output_fold output :
  TerraformGenerator._parse_output output
  = match TerraformEntries.marker_entries output with
    | [] => [("main.tf", TerraformGenerator.clean_up output)]
    | entries => fold_left store entries []
    end.
Proof.
  unfold TerraformGenerator._parse_output. rewrite tf_marker_loop_fold.
  fold (TerraformEntries.marker_entries output).
  destruct (TerraformEntries.marker_entries output) as [|e r]; [reflexivity|].
  cbn [fold_left]. rewrite fold_store_not_empty; [reflexivity|].
  apply dict_set_not_empty.
Qed.

Lemma tf_marker_pairs_values splits : forall k v,
  In (k, v) (TerraformEntries.marker_pairs splits) ->
  exists c, v = TerraformGenerator.clean_up c.
Proof.
  induction splits as [|f|f c rest IH] using list_pair_ind; simpl; intros k v H;
    try contradiction.
  destruct H as [[= <- <-]|H]; [now exists (strip c)|now apply (IH k)].
Qed.

(** X12.  No content that the Kubernetes or the Terraform parser stores
    has a code fence left or white space around it. *)
Theorem stored_contents_clean (output k v : string) :
  dict_get (K8sGenerator._parse_output output) k = Some v
  \/ dict_get (TerraformGenerator._parse_output output) k = Some v ->
  absent FENCE v /\ strip v = v.
Proof.
  intros [H|H].
  - rewrite k8s_parse_output_fold, fold_store_get in H.
    destruct (last_value (k8s_entries output) k) as [x|] eqn:E; [|discriminate].
    injection H as ->. apply last_value_in in E. unfold k8s_entries in E.
    assert (exists c, v = K8sGenerator.clean_up c) as [c ->].
    { destruct (marker_entries output) as [|e r] eqn:Em.
      - now apply named_from_values in E.
      - rewrite <- Em in E. now apply marker_pairs_values in E. }
    apply fence_free_trimmed.
  - rewrite tf_parse_output_fold in H.
    destruct (TerraformEntries.marker_entries output) as [|e r] eqn:Em.
    + cbn [dict_get] in H. destruct (String.eqb "main.tf" k); [|discriminate].
      injection H as <-. apply fence_free_trimmed.
    + rewrite fold_store_get in H.
      destruct (last_value (e :: r) k) as [x|] eqn:E; [|discriminate].
      injection H as ->. apply last_value_in in E. rewrite <- Em in E.
      apply tf_marker_pairs_values in E as [c ->]. apply fence_free_trimmed.
Qed.

Lemma stored_contents_clean_witness :
  dict_get (K8sGenerator._parse_output twice_the_same_file) "app.yaml"
  = Some "replicas: 2"
  /\ absent FENCE "replicas: 2" /\ strip "replicas: 2" = "replicas: 2".
Proof.
  split; [reflexivity|].
  apply (stored_contents_clean twice_the_same_file "app.yaml" "replicas: 2").
  left. reflexivity.
Defined.

(** X13.  The Terraform parser never gives an empty result: without a
    marker it gives the one file [main.tf] with the cleaned output, and
    with markers it gives their entries. *)
Theorem terraform_parse_never_empty (output : string) :
  TerraformGenerator._parse_output output <> []
  /\ (TerraformEntries.marker_entries output = [] ->
      TerraformGenerator._parse_output output
      = [("main.tf", TerraformGenerator.clean_up output)])
  /\ (TerraformEntries.marker_entries output <> [] ->
      forall k, dict_get (TerraformGenerator._parse_output output) k
                = last_value (TerraformEntries.marker_entries output) k).
Proof.
  rewrite tf_parse_output_fold.
  destruct (TerraformEntries.marker_entries output) as [|e r] eqn:E.
  - split; [discriminate|]. split; [reflexivity|congruence].
  - split; [|split; [discriminate|]].
    + intros H.
      assert (D : dict_is_empty (fold_left store (e :: r) []) = false).
      { cbn [fold_left]. apply fold_store_not_empty, dict_set_not_empty. }
      rewrite H in D. discriminate.
    + intros _ k. rewrite fold_store_get.
      now destruct (last_value (e :: r) k).
Qed.

(** White space has no occurrence of a text that starts with a character
    that is no white space. *)
Lemma blank_absent c sub s :
  is_space c = false -> blank s = true -> absent (String c sub) s.
Proof.
  intros Hc. unfold absent. induction s as [|a s IH]; [reflexivity|].
  simpl blank. intros H. apply andb_true_iff in H as [Ha Hs].
  cbn [str_in startswith]. rewrite (IH Hs), orb_false_r.
  destruct (Ascii.eqb_spec a c) as [->|]; [congruence|reflexivity].
Qed.

Section SplitFacts.

Variable sep : string.

(** Without an occurrence of the separator the text is the one piece. *)
Lemma str_split_absent s : absent sep s -> str_split s sep = [s].
Proof.
unfold str_split. induction s as [|c s IH]; [reflexivity|].
intros H. apply absent_cons in H as [Hs Ht].
cbn [split_from]. rewrite Hs, (IH Ht). reflexivity.
Qed.

Lemma split_from_skip x t :
split_from sep (String.length x) (x ++ t) = split_from sep 0 t.
Proof. induction x as [|c x IH]; simpl; auto. Qed.

(** The first piece is the text up to the first occurrence. *)
Lemma split_first_prefix s : forall h r,
split_from sep 0 s = h :: r -> exists u, s = h ++ u.
Proof.
induction s as [|c s IH]; intros h r H; cbn [split_from] in H.
- injection H as <- <-. now exists EmptyString.
- destruct (startswith (String c s) sep).
  + injection H as <- _. now exists (String c s).
  + destruct (split_from sep 0 s) as [|h' r'] eqn:E; simpl in H.
    * injection H as <- <-. destruct s; [now exists EmptyString|].
      cbn [split_from] in E.
      destruct (startswith (String a s) sep); [discriminate|].
      now destruct (split_from sep 0 s).
    * injection H as <- <-. destruct (IH h' r' eq_refl) as [u ->].
      now exists u.
Qed.

(** No piece of a split has the separator in it. *)
Lemma split_pieces_absent s :
sep <> EmptyString ->
forall skip piece, In piece (split_from sep skip s) -> absent sep piece.
Proof.
intros Hne. induction s as [|c s IH]; intros skip piece H; cbn [split_from] in H.
- destruct H as [<-|[]]. unfold absent. destruct sep; [congruence|reflexivity].
- destruct skip as [|skip]; [|now apply (IH skip)].
  destruct (startswith (String c s) sep) eqn:Hs.
  + destruct H as [<-|H]; [|now apply (IH _ _ H)].
    unfold absent. destruct sep; [congruence|reflexivity].
  + destruct (split_from sep 0 s) as [|h r] eqn:E; simpl in H.
    * destruct H as [<-|[]].
      exfalso. clear -E. destruct s; simpl in E; [discriminate|].
      destruct (startswith (String a s) sep); [discriminate|].
      now destruct (split_from sep 0 s).
    * destruct H as [<-|H].
      -- apply absent_cons_intro.
         ++ destruct (startswith (String c h) sep) eqn:Eh; [|reflexivity].
            destruct (split_first_prefix s h r E) as [u ->].
            apply (startswith_extend _ u) in Eh. simpl in Eh. congruence.
         ++ apply (IH 0). rewrite E. now left.
      -- apply (IH 0). rewrite E. now right.
Qed.

End SplitFacts.

(** X14.  Every fragment the fallback of the Kubernetes parser works on
    is non-empty and trimmed and has no separator in it. *)
Theorem documents_are_fragments (output doc : string) :
  In doc (K8sGenerator.documents output) ->
  doc <> EmptyString /\ strip doc = doc /\ absent "---" doc.
Proof.
  unfold K8sGenerator.documents. intros H.
  apply in_map_iff in H as (piece & <- & H).
  apply filter_In in H as [Hin Hne]. split; [|split].
  - destruct (strip piece); [discriminate|discriminate].
  - apply strip_idempotent.
  - apply absent_strip.
    apply (split_pieces_absent "---" output ltac:(discriminate) 0 piece Hin).
Qed.

Lemma documents_are_fragments_witness :
  In "y: 2" (K8sGenerator.documents two_fragments)
  /\ "y: 2" <> EmptyString /\ strip "y: 2" = "y: 2" /\ absent "---" "y: 2".
Proof.
  split; [right; left; reflexivity|].
  apply (documents_are_fragments two_fragments "y: 2").
  right. left. reflexivity.
Defined.

Lemma blank_no_marker output : blank output = true -> re_split file_pattern output = [output].
Proof.
  intros H.
  pose proof (re_split_stretch output [] (blank_absent "-" "--" output eq_refl H)) as E.
  simpl render in E. rewrite string_app_nil_r in E. rewrite E.
  simpl. now rewrite string_app_nil_r.
Qed.

(** X15.  On an output that is empty or white space only, the Kubernetes
    parser gives no file at all, and the Terraform parser gives [main.tf]
    with an empty content. *)
Theorem parsers_on_blank_output (output : string) :
  blank output = true ->
  K8sGenerator._parse_output output = []
  /\ TerraformGenerator._parse_output output = [("main.tf", "")].
Proof.
  intros H. split.
  - unfold K8sGenerator._parse_output, K8sGenerator.documents.
    rewrite (blank_no_marker output H). simpl tl. simpl K8sGenerator.marker_loop.
    cbn [dict_is_empty].
    rewrite (str_split_absent "---" output (blank_absent "-" "--" output eq_refl H)).
    simpl. now rewrite (strip_blank output H).
  - unfold TerraformGenerator._parse_output.
    rewrite (blank_no_marker output H). simpl tl. simpl TerraformGenerator.marker_loop.
    cbn [dict_is_empty dict_set]. unfold TerraformGenerator.clean_up.
    rewrite (replace_absent _ _ output (blank_absent "`" "``hcl" output eq_refl H)).
    rewrite (replace_absent _ _ output (blank_absent "`" "``terraform" output eq_refl H)).
    rewrite (replace_absent _ _ output (blank_absent "`" "``" output eq_refl H)).
    now rewrite (strip_blank output H).
Qed.

Lemma parsers_on_blank_output_witness :
  blank (" " ++ NL) = true
  /\ K8sGenerator._parse_output (" " ++ NL) = []
  /\ TerraformGenerator._parse_output (" " ++ NL) = [("main.tf", "")].
Proof.
  split; [reflexivity|].
  apply (parsers_on_blank_output (" " ++ NL)). reflexivity.
Defined.

(** X16.  The clean-up of the Docker and of the CI/CD generator leaves
    no code fence and no white space around the text, and doing it again
    changes nothing. *)
Theorem docker_cicd_clean_up (text : string) :
  (absent FENCE (DockerGenerator.clean_up text)
   /\ strip (DockerGenerator.clean_up text) = DockerGenerator.clean_up text
   /\ DockerGenerator.clean_up (DockerGenerator.clean_up text)
      = DockerGenerator.clean_up text)
  /\ (absent FENCE (CICDGenerator.clean_up text)
      /\ strip (CICDGenerator.clean_up text) = CICDGenerator.clean_up text
      /\ CICDGenerator.clean_up (CICDGenerator.clean_up text)
         = CICDGenerator.clean_up text).
Proof.
  split.
  - destruct (fence_free_trimmed (replace text (FENCE ++ "dockerfile") ""))
      as [Ha Hs].
    fold (DockerGenerator.clean_up text) in Ha, Hs.
    split; [exact Ha|]. split; [exact Hs|].
    unfold DockerGenerator.clean_up at 1.
    rewrite (replace_absent _ _ _ (absent_longer _ "dockerfile" _ Ha)).
    rewrite (replace_absent _ _ _ Ha). exact Hs.
  - destruct (fence_free_trimmed (replace text (FENCE ++ "yaml") ""))
      as [Ha Hs].
    fold (CICDGenerator.clean_up text) in Ha, Hs.
    split; [exact Ha|]. split; [exact Hs|].
    unfold CICDGenerator.clean_up at 1.
    rewrite (replace_absent _ _ _ (absent_longer _ "yaml" _ Ha)).
    rewrite (replace_absent _ _ _ Ha). exact Hs.
Qed.

(* ================================================================== *)
(** * The file names of the parsers *)
(* ================================================================== *)

Lemma plus_loop_taken cls k s g r :
  plus_loop cls k s = Some (g, r) ->
  exists t, s = g ++ t /\ run_of cls g /\ k t = Some r.
Proof.
  unfold run_of. revert g r.
  induction s as [|a s IH]; intros g r H; simpl in H; [discriminate|].
  destruct (cls a) eqn:Ha; [|discriminate].
  destruct (plus_loop cls k s) as [[g' r']|] eqn:E.
  - injection H as <- <-. destruct (IH g' r' eq_refl) as (t & -> & [_ Hg] & Hk).
    exists t. simpl. rewrite Ha, Hg. repeat split; auto. discriminate.
  - destruct (k s) as [r'|] eqn:Ek; [|discriminate].
    injection H as <- <-. exists s. simpl. rewrite Ha.
    repeat split; auto. discriminate.
Qed.

(** Every group of a match is a non-empty run of the class of its
    atom. *)
Lemma re_match_groups p : forall s gs rest,
  re_match p s = Some (gs, rest) -> Forall2 run_of (group_classes p) gs.
Proof.
  induction p as [|[c|cls|cls] p IH]; intros s gs rest H.
  - simpl in H. injection H as <- _. constructor.
  - simpl in H. destruct s as [|a s]; [discriminate|].
    destruct (Ascii.eqb a c); [|discriminate]. now apply (IH s _ rest).
  - change (re_match (Star cls :: p)) with (star_loop cls (re_match p)) in H.
    apply star_loop_taken in H as (w & t & _ & _ & H). now apply (IH t _ rest).
  - cbn [re_match] in H.
    destruct (plus_loop cls (re_match p) s) as [[g [gs' rest']]|] eqn:E;
      [|discriminate].
    injection H as <- <-. apply plus_loop_taken in E as (t & _ & Hg & Hk).
    simpl. constructor; [exact Hg|]. now apply (IH t _ rest').
Qed.

Lemma file_pattern_group s gs rest :
  re_match file_pattern s = Some (gs, rest) -> exists g, gs = [g] /\ token g.
Proof.
  intros H. apply re_match_groups in H.
  change (group_classes file_pattern) with [not_space] in H.
  inversion H as [|cls g l gs' Hg Hrest]; subst. inversion Hrest; subst.
  now exists g.
Qed.

(** The groups of a split have what the groups of the matches have. *)
Lemma re_split_groups p (P : string -> Prop) :
  (forall s gs rest, re_match p s = Some (gs, rest) -> exists g, gs = [g] /\ P g) ->
  forall s skip, groups_have P (tl (re_split_from p skip s)).
Proof.
  intros Hp. induction s as [|c s IH]; intros skip; cbn [re_split_from].
  - exact I.
  - destruct skip as [|skip]; [|apply IH].
    destruct (re_match p (String c s)) as [[gs rest]|] eqn:E.
    + destruct (Hp _ _ _ E) as (g & -> & Hg). cbn [tl app].
      specialize (IH (String.length (String c s) - String.length rest - 1)).
      destruct (re_split_from p _ s) as [|h r] eqn:Er.
      * now apply re_split_from_not_nil in Er.
      * simpl. auto.
    + specialize (IH 0). destruct (re_split_from p 0 s) as [|h r] eqn:Er.
      * now apply re_split_from_not_nil in Er.
      * exact IH.
Qed.

Lemma marker_pairs_keys pieces : forall k,
  groups_have token pieces ->
  In k (map fst (marker_pairs pieces)) -> token k.
Proof.
  induction pieces as [|f|f c rest IH] using list_pair_ind; simpl; intros k H Hin;
    try contradiction.
  destruct H as [Hf Hrest]. destruct Hin as [<-|Hin]; [|now apply IH].
  now rewrite (strip_token f Hf).
Qed.

Lemma tf_marker_pairs_keys pieces : forall k,
  groups_have token pieces ->
  In k (map fst (TerraformEntries.marker_pairs pieces)) -> token k.
Proof.
  induction pieces as [|f|f c rest IH] using list_pair_ind; simpl; intros k H Hin;
    try contradiction.
  destruct H as [Hf Hrest]. destruct Hin as [<-|Hin]; [|now apply IH].
  now rewrite (strip_token f Hf).
Qed.

(** The keys of a result are keys of the entries stored. *)
Lemma keys_fold_store entries : forall d k,
  In k (keys (fold_left store entries d)) ->
  In k (keys d) \/ In k (map fst entries).
Proof.
  induction entries as [|[k0 v0] r IH]; intros d k H; simpl in *; [now left|].
  apply IH in H as [H|H]; [|now right; right].
  unfold store in H. simpl in H. rewrite keys_set in H.
  destruct (existsb (String.eqb k0) (keys d)); [now left|].
  apply in_app_or in H as [H|[<-|[]]]; [now left|now right; left].
Qed.

(** X17.  A file name that the Kubernetes or the Terraform parser takes
    from a marker is never empty and has no white space in it. *)
Theorem marker_names_are_tokens (output k : string) :
  (marker_entries output <> []
   /\ In k (keys (K8sGenerator._parse_output output)))
  \/ (TerraformEntries.marker_entries output <> []
      /\ In k (keys (TerraformGenerator._parse_output output))) ->
  token k.
Proof.
  pose proof (re_split_groups file_pattern token file_pattern_group output 0) as Hg.
  fold (re_split file_pattern output) in Hg.
  intros [[Hne H]|[Hne H]].
  - rewrite k8s_parse_output_fold in H. unfold k8s_entries in H.
    destruct (marker_entries output) as [|e r] eqn:E; [congruence|].
    apply keys_fold_store in H as [[]|H]. rewrite <- E in H.
    now apply (marker_pairs_keys _ k Hg).
  - rewrite tf_parse_output_fold in H.
    destruct (TerraformEntries.marker_entries output) as [|e r] eqn:E; [congruence|].
    apply keys_fold_store in H as [[]|H]. rewrite <- E in H.
    now apply (tf_marker_pairs_keys _ k Hg).
Qed.

Lemma marker_names_are_tokens_witness :
  marker_entries twice_the_same_file <> []
  /\ In "app.yaml" (keys (K8sGenerator._parse_output twice_the_same_file))
  /\ token "app.yaml".
Proof.
  split; [discriminate|]. split; [left; reflexivity|].
  apply (marker_names_are_tokens twice_the_same_file "app.yaml").
  left. split; [discriminate|left; reflexivity].
Defined.

(** ** The names of the fallback *)

Lemma all_chars_app cls a b :
  all_chars cls (a ++ b) = all_chars cls a && all_chars cls b.
Proof.
  induction a as [|c a IH]; simpl; [reflexivity|]. now rewrite IH, andb_assoc.
Qed.

Lemma all_chars_weaken (cls cls' : ascii -> bool) s :
  (forall c, cls c = true -> cls' c = true) ->
  all_chars cls s = true -> all_chars cls' s = true.
Proof.
  intros Hc. induction s as [|c s IH]; simpl; [reflexivity|].
  intros H. apply andb_true_iff in H as [H1 H2]. now rewrite (Hc c H1), IH.
Qed.

Lemma all_chars_absent cls c s :
  cls c = false -> all_chars cls s = true -> absent (String c "") s.
Proof.
  intros Hc. unfold absent. induction s as [|a s IH]; [reflexivity|].
  simpl all_chars. intros H. apply andb_true_iff in H as [Ha Hs].
  cbn [str_in startswith]. rewrite (IH Hs), orb_false_r, andb_true_r.
  destruct (Ascii.eqb_spec a c) as [->|]; [congruence|reflexivity].
Qed.

Lemma lower_char_word c : is_word c = true -> is_word (lower_char c) = true.
Proof.
  destruct c as [b0 b1 b2 b3 b4 b5 b6 b7].
  destruct b0, b1, b2, b3, b4, b5, b6, b7; intros H; try reflexivity; discriminate H.
Qed.

Lemma lower_word s : all_chars is_word s = true -> all_chars is_word (lower s) = true.
Proof.
  induction s as [|c s IH]; simpl; [reflexivity|].
  intros H. apply andb_true_iff in H as [H1 H2].
  now rewrite (lower_char_word c H1), IH.
Qed.

Lemma string_of_uint_word d : all_chars is_word (NilEmpty.string_of_uint d) = true.
Proof. induction d; simpl; auto. Qed.

Lemma str_of_nat_word n : all_chars is_word (str_of_nat n) = true.
Proof.
  unfold str_of_nat, NilZero.string_of_uint.
  destruct (Nat.to_uint n) eqn:E; try (rewrite <- E; apply string_of_uint_word).
  reflexivity.
Qed.

Lemma word_name_char c : is_word c = true -> name_char c = true.
Proof. intros H. unfold name_char. now rewrite H. Qed.

(** The name of a fragment is made of letters, digits, underscores,
    hyphens and dots, and ends with [.yaml]. *)
Lemma name_document_name i doc :
  all_chars name_char (fst (K8sGenerator.name_document i doc)) = true
  /\ ends_with (fst (K8sGenerator.name_document i doc)) ".yaml".
Proof.
  unfold K8sGenerator.name_document.
  destruct (re_search K8sGenerator.kind_pattern (K8sGenerator.clean_up doc))
    as [[gs r]|] eqn:E; cbn [fst].
  - apply re_search_some in E as (before & s & _ & Hm & _).
    apply kind_pattern_matched in Hm as (ident & -> & (sp & rest & _ & _ & _ & Hid & _)).
    cbn [nth]. split; [|now exists (lower ident)].
    rewrite all_chars_app. apply andb_true_iff. split; [|reflexivity].
    apply (all_chars_weaken is_word); [apply word_name_char|].
    now apply lower_word.
  - split; [|exists ("manifest-" ++ str_of_nat (i + 1));
             now rewrite !string_app_assoc].
    rewrite !all_chars_app. apply andb_true_iff. split; [reflexivity|].
    apply andb_true_iff. split; [|reflexivity].
    apply (all_chars_weaken is_word); [apply word_name_char|].
    apply str_of_nat_word.
Qed.

Lemma named_from_names docs : forall i k,
  In k (map fst (named_from docs i)) ->
  all_chars name_char k = true /\ ends_with k ".yaml".
Proof.
  induction docs as [|d docs IH]; simpl; intros i k H; [contradiction|].
  destruct H as [<-|H]; [apply name_document_name|now apply (IH (S i))].
Qed.

(** X18.  On an output of code points below 256 (the texts of this
    development, on which [str.lower] maps character by character) that
    has no file marker, every file name of the Kubernetes parser is made
    of word characters of that range, hyphens and dots and ends with
    [.yaml]; it has no slash, so it names a file of the output
    directory itself. *)
Theorem fallback_names_are_plain (output k : string) :
  marker_entries output = [] ->
  In k (keys (K8sGenerator._parse_output output)) ->
  all_chars name_char k = true /\ ends_with k ".yaml" /\ absent "/" k.
Proof.
  intros Hm H. rewrite k8s_parse_output_fold in H. unfold k8s_entries in H.
  rewrite Hm in H. apply keys_fold_store in H as [[]|H].
  apply named_from_names in H as [Hc He]. split; [exact Hc|]. split; [exact He|].
  now apply (all_chars_absent name_char).
Qed.

Lemma fallback_names_are_plain_witness :
  marker_entries two_fragments = []
  /\ In "pod.yaml" (keys (K8sGenerator._parse_output two_fragments))
  /\ all_chars name_char "pod.yaml" = true
  /\ ends_with "pod.yaml" ".yaml" /\ absent "/" "pod.yaml".
Proof.
  split; [reflexivity|]. split; [left; reflexivity|].
  apply (fallback_names_are_plain two_fragments "pod.yaml");
    [reflexivity|left; reflexivity].
Defined.

(** A marker can name a file outside the output directory; the fallback
    cannot. *)
Example marker_name_with_slashes :
  K8sGenerator._parse_output (marker "../../etc/app.yaml" ++ "a: 1")
  = [("../../etc/app.yaml", "a: 1")].
Proof. reflexivity. Qed.

(* ================================================================== *)
(** * The Terraform parser on well-formed markers *)
(* ================================================================== *)

(** The pieces of a rendered text, whatever the loop that reads them. *)
Lemma re_split_render_pieces files : forall x,
  absent "---" x ->
  Forall plain_file files ->
  exists pieces,
    re_split file_pattern (x ++ render files) = x :: pieces
    /\ pieces_of pieces files.
Proof.
  induction files as [|[f c] r IH]; intros x Hx Hfiles.
  - exists []. split; [|constructor].
    rewrite re_split_stretch by exact Hx. simpl.
    now rewrite string_app_nil_r.
  - inversion Hfiles as [|? ? [Hf Hc] Hr]; subst. simpl in Hf, Hc.
    destruct (marker_match f c (render r) Hf (render_clean_head r))
      as (w & c' & -> & Hw & Hm).
    destruct (IH c' (absent_suffix _ _ _ Hc) Hr) as (pieces & Hsplit & Hp).
    exists (f :: c' :: pieces). split.
    + rewrite re_split_stretch by exact Hx.
      cbn [render].
      replace (marker f ++ (w ++ c') ++ render r)
        with ((marker f ++ w) ++ c' ++ render r)
        by (now rewrite !string_app_assoc).
      rewrite (re_split_here file_pattern (marker f ++ w) (c' ++ render r) [f]).
      * rewrite Hsplit. simpl. now rewrite string_app_nil_r.
      * unfold marker. discriminate.
      * rewrite <- Hm. f_equal. now rewrite !string_app_assoc.
    + constructor; [|exact Hp]. now rewrite blank_lstrip.
Qed.

Lemma tf_marker_loop_pieces pieces files :
  pieces_of pieces files ->
  Forall plain_file files ->
  forall d,
    TerraformGenerator.marker_loop pieces d
    = fold_left store (map TerraformEntries.cleaned files) d.
Proof.
  induction 1 as [|f c c' pieces files Hc Hp IH]; intros Hfiles d; [reflexivity|].
  inversion Hfiles as [|? ? [Hf _] Hr]; subst. simpl in Hf.
  cbn [TerraformGenerator.marker_loop map fold_left].
  rewrite (strip_token f Hf), (IH Hr).
  unfold TerraformEntries.cleaned, store at 2. cbn [fst snd].
  unfold strip. now rewrite Hc.
Qed.

(** X19.  The Terraform parser on a text made of a part without
    separator and of well-formed markers with distinct file names, each
    followed by a content without separator: exactly one file for each
    marker, under the name of the marker, in the order of the markers,
    with the content cleaned by the Terraform clean-up; nothing goes to
    [main.tf]. *)
Theorem terraform_splitter_on_markers
    (pre : string) (files : list (string * string)) :
  absent "---" pre ->
  Forall plain_file files ->
  files <> [] ->
  NoDup (map fst files) ->
  TerraformGenerator._parse_output (pre ++ render files)
  = map TerraformEntries.cleaned files
  /\ keys (TerraformGenerator._parse_output (pre ++ render files)) = map fst files.
Proof.
  intros Hpre Hfiles Hne Hdup.
  assert (H : TerraformGenerator._parse_output (pre ++ render files)
              = map TerraformEntries.cleaned files).
  { unfold TerraformGenerator._parse_output.
    destruct (re_split_render_pieces files pre Hpre Hfiles) as (pieces & Hs & Hp).
    rewrite Hs. cbn [tl].
    rewrite (tf_marker_loop_pieces pieces files Hp Hfiles), fold_store_distinct.
    - simpl. destruct files; [congruence|reflexivity].
    - simpl. now rewrite map_map. }
  rewrite H. split; [reflexivity|].
  unfold keys. now rewrite map_map.
Qed.

Lemma terraform_splitter_on_markers_witness :
  TerraformGenerator._parse_output
    ("Sure." ++ NL
       ++ render [("main.tf", "```hcl" ++ NL ++ "resource {}" ++ NL ++ "```" ++ NL);
                  ("variables.tf", "")])
  = [("main.tf", "resource {}"); ("variables.tf", "")].
Proof.
  apply (terraform_splitter_on_markers ("Sure." ++ NL)
           [("main.tf", "```hcl" ++ NL ++ "resource {}" ++ NL ++ "```" ++ NL);
            ("variables.tf", "")]).
  - reflexivity.
  - repeat constructor; discriminate.
  - discriminate.
  - repeat constructor; simpl; intuition discriminate.
Defined.

(* ================================================================== *)
(** * The documentation links *)
(* ================================================================== *)

(** A lookup with a default gives a value of the table or the default. *)
Lemma table_get_cases {A} (P : A -> Prop) (table : list (string * A)) key default :
  Forall (fun entry => P (snd entry)) table ->
  P default ->
  P (table_get table key default).
Proof.
  intros Ht Hd. induction Ht as [|[k v] r Hv Hr IH]; simpl; [exact Hd|].
  destruct (String.eqb k key); [exact Hv|exact IH].
Qed.

(** X20.  Whatever the field and the infrastructure type, known or not,
    the documentation link is an https address, and the comment made of
    it starts with [# Reference: https://]. *)
Theorem doc_links_are_https (field infra_type : string) :
  startswith (DocLinker.get_doc_link field infra_type) "https://" = true
  /\ startswith (DocLinker.format_doc_comment field infra_type)
       "# Reference: https://" = true.
Proof.
  assert (H : startswith (DocLinker.get_doc_link field infra_type) "https://" = true).
  { unfold DocLinker.get_doc_link.
    apply (table_get_cases
             (fun links => startswith (table_get links field "https://kubernetes.io/docs/")
                             "https://" = true)).
    - repeat constructor; cbn [snd];
        apply (table_get_cases (fun url => startswith url "https://" = true));
        try reflexivity; repeat constructor.
    - apply (table_get_cases (fun url => startswith url "https://" = true));
        [repeat constructor|reflexivity]. }
  split; [exact H|].
  unfold DocLinker.format_doc_comment.
  apply startswith_split in H as [t ->]. reflexivity.
Qed.
